(** * image_converter.py: RGB888 images to RGB565 C headers

    A shallow embedding of [src/image_converter.py] and the properties its
    specification states about it.

    Modelling choices.
    - A Python [str] is a list of Unicode code points ([N]).  The ASCII part
      of [str.isalpha], [str.upper] and [str.lower] is written out; what
      they do on code points from 128 on comes from the interpreter's
      Unicode database and is a field of [platform].
    - A Python [int] is a [Z].  A pixel component read from the decoded
      array is a NumPy scalar of dtype [uint8]; the dtype an operation
      between such a scalar and a Python literal is carried out in depends
      on NumPy's promotion rules, also a field of [platform].
    - A [pathlib] path is the list of its components; [suffix] and [stem]
      are those of Python up to 3.13.
    - [print] appends a structured message to a log, or raises when the
      message cannot be written to standard output (a file name the
      stream cannot encode); the output directory is a finite map from
      paths to file contents; both are threaded through the methods
      together with raised exceptions.
    - Pillow, the file system, the directory listing and the output
      stream are an [env]: the tree [os.walk] lists, which files decode
      and to what, which files can be written, what a failed write leaves
      behind (nothing, or a file opened and cut short), and which messages
      can be printed. *)

From Stdlib Require Import ZArith NArith Lia.
From Stdlib Require Import Strings.Ascii Strings.String.
From Stdlib Require Import Numbers.DecimalString Numbers.HexadecimalString.
From stdpp Require Import base option list gmap.

Local Open Scope Z_scope.

(** ** Python strings *)

Abbreviation char := N (only parsing).
Abbreviation pystr := (list N) (only parsing).

(** [str s] is the Python string with the characters of the literal [s]. *)
Definition str (s : string) : pystr :=
  map N_of_ascii (list_ascii_of_string s).

Definition chr (c : ascii) : char := N_of_ascii c.

(** [sep.join(parts)] *)
Fixpoint join (sep : pystr) (parts : list pystr) : pystr :=
  match parts with
  | [] => []
  | [p] => p
  | p :: rest => p ++ sep ++ join sep rest
  end.

Definition newline : pystr := [10%N].

(** [s.replace(old, new)] for one-character [old] and [new]. *)
Definition replace (old new : char) (s : pystr) : pystr :=
  map (fun c => if N.eqb c old then new else c) s.

(** [s.rfind('.')]: the last index of the character, [None] for Python's -1. *)
Fixpoint rfind (c : char) (s : pystr) : option nat :=
  match s with
  | [] => None
  | x :: rest =>
      match rfind c rest with
      | Some i => Some (S i)
      | None => if N.eqb x c then Some O else None
      end
  end.

Definition is_ascii_upper (c : char) : bool := (65 <=? c)%N && (c <=? 90)%N.
Definition is_ascii_lower (c : char) : bool := (97 <=? c)%N && (c <=? 122)%N.

(** The interpreter and the libraries the script runs on. *)
Inductive promotion :=
| Legacy   (* NumPy before 2.0: a scalar and a Python int promote by value *)
| NEP50.   (* NumPy 2.0 and later: a Python int adopts the scalar's dtype *)

Record platform := Platform {
  numpy : promotion;
  uni_isalpha : char -> bool;     (* [c.isalpha()], code points >= 128 *)
  uni_upper : char -> pystr;      (* [c.upper()], code points >= 128 *)
  uni_lower : pystr -> nat -> pystr
    (* the lower-case form of the character at an index of a string, code
       points >= 128; that of a capital sigma depends on its neighbours *)
}.

Section Strings.
Variable P : platform.

(** [c.isalpha()] for a one-character string *)
Definition isalpha (c : char) : bool :=
  if (c <? 128)%N then is_ascii_upper c || is_ascii_lower c
  else uni_isalpha P c.

Definition upper_char (c : char) : pystr :=
  if (c <? 128)%N then [if is_ascii_lower c then (c - 32)%N else c]
  else uni_upper P c.

(** [s.upper()] *)
Definition upper (s : pystr) : pystr := concat (map upper_char s).

(** The lower-case form of the characters [rest] of [s], from index [i]
    on. *)
Fixpoint lower_from (s : pystr) (i : nat) (rest : pystr) : pystr :=
  match rest with
  | [] => []
  | c :: rest' =>
      (if (c <? 128)%N then [if is_ascii_upper c then (c + 32)%N else c]
       else uni_lower P s i)
      ++ lower_from s (S i) rest'
  end.

(** [s.lower()] *)
Definition lower (s : pystr) : pystr := lower_from s 0 s.
End Strings.

(** ** Formatting integers *)

(** [f"{n}"] for a non-negative [int] *)
Definition fmt_d (n : nat) : pystr :=
  str (DecimalString.NilZero.string_of_uint (Nat.to_uint n)).

Definition hex_upper (c : char) : char :=
  if is_ascii_lower c then (c - 32)%N else c.

(** [f"{n:X}"] for a non-negative [int]: upper-case digits, no prefix *)
Definition fmt_X (n : N) : pystr :=
  map hex_upper (str (HexadecimalString.NilZero.string_of_uint (N.to_hex_uint n))).

(** [f"{z:04X}"]: zero fill to four columns, a sign counted among them *)
Definition fmt_04X (z : Z) : pystr :=
  let digits := fmt_X (Z.abs_N z) in
  if z <? 0
  then chr "-" :: repeat (chr "0") (3 - length digits)%nat ++ digits
  else repeat (chr "0") (4 - length digits)%nat ++ digits.

(** ** Numbers

    [rgb888_to_rgb565] is written against whatever its arguments support:
    it is called with Python ints by a reader of the code and with NumPy
    scalars by [image_to_c_array].  The operators it uses are the methods
    of [PyNumber]. *)

Class PyNumber (T : Type) := {
  and_lit : T -> Z -> T;       (* [x & k] for an int literal [k] *)
  lshift_lit : T -> Z -> T;    (* [x << k] *)
  rshift_lit : T -> Z -> T;    (* [x >> k] *)
  bor : T -> T -> T;           (* [x | y] *)
  index : T -> Z               (* [int(x)], what [format] prints *)
}.

#[export] Instance pyint : PyNumber Z := {
  and_lit := Z.land;
  lshift_lit := Z.shiftl;
  rshift_lit := Z.shiftr;
  bor := Z.lor;
  index := fun z => z
}.

(** NumPy scalars.  Only two dtypes occur: [uint8], the dtype of the array
    [np.array(img)] of an RGB image, and the default integer that legacy
    promotion widens to (64 bits; 32 on some systems, wide enough for what
    follows either way). *)
Inductive dtype := uint8 | int64.

Record npscalar := NpScalar { dtype_of : dtype; value : Z }.

Definition wrap (d : dtype) (z : Z) : Z :=
  match d with
  | uint8 => z mod 2 ^ 8
  | int64 => (z + 2 ^ 63) mod 2 ^ 64 - 2 ^ 63
  end.

(** The dtype of [x op k] for a scalar [x] and a Python int [k] that fits
    the dtype (the literals of the source, 0xF8, 0xFC, 8 and 3, do). *)
Definition promote_lit (p : promotion) (d : dtype) : dtype :=
  match p with
  | Legacy => int64
  | NEP50 => d
  end.

(** The dtype of [x op y] for two scalars. *)
Definition promote_types (d1 d2 : dtype) : dtype :=
  match d1, d2 with
  | uint8, uint8 => uint8
  | _, _ => int64
  end.

Definition np_op_lit (p : promotion) (op : Z -> Z -> Z) (x : npscalar) (k : Z)
  : npscalar :=
  let d := promote_lit p (dtype_of x) in
  NpScalar d (wrap d (op (value x) k)).

Definition np_op (op : Z -> Z -> Z) (x y : npscalar) : npscalar :=
  let d := promote_types (dtype_of x) (dtype_of y) in
  NpScalar d (wrap d (op (value x) (value y))).

Definition npnumber (p : promotion) : PyNumber npscalar := {|
  and_lit := np_op_lit p Z.land;
  lshift_lit := np_op_lit p Z.shiftl;
  rshift_lit := np_op_lit p Z.shiftr;
  bor := np_op Z.lor;
  index := value
|}.

(** Lines 36-38. *)
Definition rgb888_to_rgb565 {T : Type} {num : PyNumber T} (r g b : T) : T :=
  bor (bor (lshift_lit (and_lit r 0xF8) 8) (lshift_lit (and_lit g 0xFC) 3))
      (rshift_lit b 3).

(** A component of the decoded array, as the scalar indexing returns. *)
Definition u8 (b : Byte.byte) : npscalar :=
  NpScalar uint8 (Z.of_N (Byte.to_N b)).

(** ** Paths

    A [pathlib] path is the list of its components. *)

Abbreviation path := (list (list N)) (only parsing).

(** [PurePath.suffix] and [PurePath.stem] of a file name: the last dot
    splits the name unless it is its first or its last character. *)
Definition split_at_suffix (name : pystr) : option nat :=
  match rfind (chr ".") name with
  | Some i => if (0 <? i)%nat && (i <? length name - 1)%nat then Some i else None
  | None => None
  end.

Definition suffix (name : pystr) : pystr :=
  match split_at_suffix name with
  | Some i => drop i name
  | None => []
  end.

Definition stem (name : pystr) : pystr :=
  match split_at_suffix name with
  | Some i => take i name
  | None => name
  end.

(** [p.with_suffix(suf)]; [None] is the [ValueError] for a path without a
    name. *)
Definition with_suffix (p : path) (suf : pystr) : option path :=
  match last p with
  | Some name => Some (removelast p ++ [stem name ++ suf])
  | None => None
  end.

(** [p.relative_to(base)]; [None] is the [ValueError] raised when [base] is
    not a prefix of [p]. *)
Fixpoint relative_to (p base : path) : option path :=
  match base, p with
  | [], _ => Some p
  | b :: base', c :: p' =>
      if decide (b = c) then relative_to p' base' else None
  | _ :: _, [] => None
  end.

(** A directory as [os.walk] lists it: its files and its subdirectories, in
    listing order. *)
#[warnings="-register-all"] Inductive tree := Dir (files : list pystr) (dirs : list (pystr * tree)).

(** [os.walk(top)], top-down: the triples [(root, dirs, files)]. *)
Fixpoint walk (root : path) (t : tree)
  : list (path * list pystr * list pystr) :=
  match t with
  | Dir files dirs =>
      (root, map fst dirs, files)
        :: (fix sub (ds : list (pystr * tree)) :=
              match ds with
              | [] => []
              | (d, t') :: ds' => walk (root ++ [d]) t' ++ sub ds'
              end) dirs
  end.

(** ** Images *)

(** What [Image.open], [convert('RGB')] and [np.array] leave in hand:
    [img.size] and the array indexed [[y, x]], three [uint8] components a
    pixel. *)
Record image := Image {
  width : nat;
  height : nat;
  img_array : nat -> nat -> Byte.byte * Byte.byte * Byte.byte
}.

(** ** The world outside *)

(** One constructor for each [print] of the script. *)
Inductive diag :=
| ErrorProcessing (image_path : path)          (* line 111 *)
| Converting (relative_path : path)            (* line 117 *)
| Generated (output_file : path)               (* line 134 *)
| ErrorConverting (image_path : path)          (* line 138 *)
| ScanningSource (source_dir : path)           (* line 146 *)
| OutputDirectory (output_dir : path)          (* line 147 *)
| Blank                                        (* lines 148, 167 *)
| ConversionComplete                           (* line 168 *)
| ImagesConverted (n : nat)                    (* line 169 *)
| Errors (n : nat)                             (* line 170 *)
| ErrorNotFound                                (* line 217 *)
| UnexpectedError.                             (* line 220 *)

(** What the script changes: its standard output and the files below the
    output directory. *)
Record world := World {
  stdout : list diag;
  files : gmap path pystr
}.

(** What the script reads and what can go wrong outside it. *)
Record env := Env {
  source : path -> option tree;       (* [None]: the path does not exist *)
  mkdir_ok : path -> bool;            (* [mkdir(parents=True, exist_ok=True)] *)
  decode : path -> option image;      (* [None]: opening or decoding raises *)
  write_ok : path -> bool;            (* creating and writing the file *)
  torn : path -> option nat;
    (* what a write that fails leaves: [None] when the directory or the
       file could not be created, [Some k] when [open(..., 'w')] created
       or truncated the file and only [k] characters reached it *)
  print_ok : diag -> bool             (* standard output takes the line *)
}.

Inductive exn :=
| FileNotFoundError
| OtherException            (* any other subclass of [Exception] *)
| SystemExit (code : Z).    (* not a subclass of [Exception] *)

Inductive result (A : Type) :=
| Ok (a : A)
| Raise (e : exn).
Arguments Ok {A} a.
Arguments Raise {A} e.

(** A method: it returns or raises, and changes the world on the way. *)
Definition M (A : Type) : Type := world -> result A * world.

Definition ret {A} (a : A) : M A := fun w => (Ok a, w).
Definition raise {A} (e : exn) : M A := fun w => (Raise e, w).
Definition bind {A B} (m : M A) (k : A -> M B) : M B :=
  fun w => match m w with
           | (Ok a, w') => k a w'
           | (Raise e, w') => (Raise e, w')
           end.

Notation "x <- m ;; k" := (bind m (fun x => k))
  (at level 100, m at next level, right associativity).
Notation "m ;;; k" := (bind m (fun _ => k))
  (at level 100, right associativity).

(** [print(...)]: the line is written whole, or the stream raises (a
    [UnicodeEncodeError], say) and nothing of it is written. *)
Definition print (E : env) (d : diag) : M unit :=
  fun w =>
    if print_ok E d
    then (Ok tt, World (stdout w ++ [d]) (files w))
    else (Raise OtherException, w).

(** [try: body except Exception: handler]; [SystemExit] passes through. *)
Definition try_except {A} (body : M A) (handler : M A) : M A :=
  fun w => match body w with
           | (Raise (SystemExit c), w') => (Raise (SystemExit c), w')
           | (Raise _, w') => handler w'
           | r => r
           end.

(** [for x in l: s = body(x, s)] *)
Fixpoint for_each {A S} (l : list A) (body : A -> S -> M S) (s : S) : M S :=
  match l with
  | [] => ret s
  | x :: l' => s' <- body x s ;; for_each l' body s'
  end.

(** ** The converter *)

Definition SUPPORTED_FORMATS : list pystr :=
  [str ".png"; str ".jpg"; str ".jpeg"; str ".bmp"; str ".gif"; str ".tiff"].

(** An [ImageConverter] instance. *)
Record converter := Converter {
  source_dir : path;
  output_dir : path
}.

(** The parsed command line. *)
Record args := Args {
  arg_source_dir : path;
  arg_output_dir : path;
  verbose : bool
}.

Section Converter.
Variable P : platform.
Variable E : env.

(** The arithmetic of the NumPy the script is run with. *)
#[local] Instance np : PyNumber npscalar := npnumber (numpy P).

(** Lines 26-34. *)
Definition __init__ (source_dir output_dir : path) : M converter :=
  match source E source_dir with
  | None => raise FileNotFoundError
  | Some _ =>
      if mkdir_ok E output_dir
      then ret (Converter source_dir output_dir)
      else raise OtherException
  end.

(** Lines 55-58; [None] is the [IndexError] of [var_name[0]] on the empty
    string. *)
Definition var_name (stem : pystr) : option pystr :=
  let var_name := replace (chr " ") (chr "_") (replace (chr "-") (chr "_") stem) in
  match var_name with
  | [] => None
  | c :: _ =>
      if negb (isalpha P c) && negb (N.eqb c (chr "_"))
      then Some (str "img_" ++ var_name)
      else Some var_name
  end.

(** Lines 79-83: the inner loop. *)
Definition row_pixels (img : image) (y : nat) : list pystr :=
  fold_left
    (fun row_pixels x =>
       let '(r, g, b) := img_array img y x in
       let rgb565 := rgb888_to_rgb565 (u8 r) (u8 g) (u8 b) in
       row_pixels ++ [str "0x" ++ fmt_04X (index rgb565)])
    (seq 0 (width img)) [].

(** Lines 77-89: the outer loop. *)
Definition pixels (img : image) : list pystr :=
  fold_left
    (fun pixels y =>
       let row_pixels := row_pixels img y in
       if Z.of_nat y <? Z.of_nat (height img) - 1
       then pixels ++ [str "    " ++ join (str ", ") row_pixels ++ str ","]
       else pixels ++ [str "    " ++ join (str ", ") row_pixels])
    (seq 0 (height img)) [].

(** Lines 61-106: the lines of the header, in the order they are appended. *)
Definition c_content (name var_name : pystr) (img : image) : list pystr :=
  let width := width img in
  let height := height img in
  [ str "/*";
    str " * Generated from: " ++ name;
    str " * Image size: " ++ fmt_d width ++ str "x" ++ fmt_d height ++ str " pixels";
    str " * Format: RGB565";
    str " */";
    str "";
    str "#pragma once";
    str "#include <stdint.h>";
    str "";
    str "#define " ++ upper P var_name ++ str "_WIDTH  " ++ fmt_d width;
    str "#define " ++ upper P var_name ++ str "_HEIGHT " ++ fmt_d height;
    str "";
    str "const uint16_t " ++ var_name ++ str "_data[" ++ fmt_d (width * height) ++ str "] = {" ]
  ++ pixels img
  ++ [ str "};";
       str "";
       str "typedef struct {";
       str "    const uint16_t* data;";
       str "    uint16_t width;";
       str "    uint16_t height;";
       str "} " ++ var_name ++ str "_t;";
       str "";
       str "const " ++ var_name ++ str "_t " ++ var_name ++ str " = {";
       str "    .data = " ++ var_name ++ str "_data,";
       str "    .width = " ++ upper P var_name ++ str "_WIDTH,";
       str "    .height = " ++ upper P var_name ++ str "_HEIGHT";
       str "};" ].

(** Lines 40-112.  Whatever raises inside the [try] is reported and turned
    into [None]. *)
Definition image_to_c_array (image_path : path) : M (option pystr) :=
  let failed := print E (ErrorProcessing image_path) ;;; ret None in
  match decode E image_path with
  | None => failed
  | Some img =>
      let name := default [] (last image_path) in
      match var_name (stem name) with
      | None => failed
      | Some var_name => ret (Some (join newline (c_content name var_name img)))
      end
  end.

(** Lines 128-132: create the parent directory, open the file and write. *)
Definition write_file (output_file : path) (c_content : pystr) : M unit :=
  fun w =>
    if write_ok E output_file
    then (Ok tt, World (stdout w) (<[output_file := c_content]> (files w)))
    else
      match torn E output_file with
      | Some k =>
          (Raise OtherException,
           World (stdout w) (<[output_file := take k c_content]> (files w)))
      | None => (Raise OtherException, w)
      end.

(** Lines 114-139. *)
Definition convert_image_file (self : converter) (image_path relative_path : path)
  : M bool :=
  try_except
    (print E (Converting relative_path) ;;;
     c_content <- image_to_c_array image_path ;;
     match c_content with
     | None => ret false
     | Some c_content =>
         match with_suffix relative_path (str ".h") with
         | None => raise OtherException
         | Some header =>
             let output_file := output_dir self ++ header in
             write_file output_file c_content ;;;
             print E (Generated output_file) ;;;
             ret true
         end
     end)
    (print E (ErrorConverting image_path) ;;; ret false).

(** Line 158. *)
Definition supported (file_path : path) : bool :=
  bool_decide (lower P (suffix (default [] (last file_path))) ∈ SUPPORTED_FORMATS).

(** Lines 154-165: the body of the inner loop, on the two counters. *)
Definition visit_file (self : converter) (root_path : path) (file : pystr)
  (counts : nat * nat) : M (nat * nat) :=
  let '(converted_count, error_count) := counts in
  let file_path := root_path ++ [file] in
  if supported file_path
  then
    match relative_to file_path (source_dir self) with
    | None => raise OtherException
    | Some relative_path =>
        ok <- convert_image_file self file_path relative_path ;;
        if ok : bool
        then ret (S converted_count, error_count)
        else ret (converted_count, S error_count)
    end
  else ret counts.

(** [os.walk] of a path that is not a directory lists nothing. *)
Definition os_walk (top : path) : list (path * list pystr * list pystr) :=
  match source E top with
  | Some t => walk top t
  | None => []
  end.

(** Lines 141-172. *)
Definition scan_and_convert (self : converter) : M (nat * nat) :=
  print E (ScanningSource (source_dir self)) ;;;
  print E (OutputDirectory (output_dir self)) ;;;
  print E Blank ;;;
  counts <- for_each (os_walk (source_dir self))
              (fun '(root, _, files) counts =>
                 for_each files (visit_file self root) counts)
              (O, O) ;;
  print E Blank ;;;
  print E ConversionComplete ;;;
  print E (ImagesConverted (fst counts)) ;;;
  print E (Errors (snd counts)) ;;;
  ret counts.

(** Lines 206-214: the body of the [try] statement of [main]. *)
Definition main_body (a : args) : M unit :=
  converter <- __init__ (arg_source_dir a) (arg_output_dir a) ;;
  counts <- scan_and_convert converter ;;
  if (0 <? snd counts)%nat then raise (SystemExit 1) else ret tt.

(** Lines 205 and 216-221: its handlers. *)
Definition try_main (body : M unit) : M unit :=
  fun w =>
    match body w with
    | (Raise FileNotFoundError, w') =>
        (print E ErrorNotFound ;;; raise (SystemExit 1)) w'
    | (Raise OtherException, w') =>
        (print E UnexpectedError ;;; raise (SystemExit 1)) w'
    | r => r
    end.

(** The exit status of the interpreter: 0 when [main] returns, the code of
    a [SystemExit], 1 for an exception nobody caught. *)
Definition exit_status {A} (r : result A) : Z :=
  match r with
  | Ok _ => 0
  | Raise (SystemExit code) => code
  | Raise _ => 1
  end.

(** Lines 175-221, after the command line is parsed. *)
Definition main (a : args) (w : world) : Z * world :=
  let '(r, w') := try_main (main_body a) w in (exit_status r, w').

End Converter.

(** Lines 81-82 again, as numbers: the value the call site computes for a
    pixel and formats, with the arithmetic of NumPy scalars the platform
    has, and those values for the whole array in the order of the two
    loops. *)
Definition call_site_value (P : platform) (px : Byte.byte * Byte.byte * Byte.byte) : Z :=
  let '(r, g, b) := px in
  value (rgb888_to_rgb565 (num := npnumber (numpy P)) (u8 r) (u8 g) (u8 b)).

Definition call_site_buffer (P : platform) (img : image) : list Z :=
  flat_map (fun y => map (fun x => call_site_value P (img_array img y x))
                         (seq 0 (width img)))
           (seq 0 (height img)).

(** ** The specification's words

    The definitions of this part follow the specification, not the code;
    the theorems compare the two. *)

(** Identifier Deriver: hyphens and spaces become underscores, every other
    character stays. *)
Definition sanitize_char (c : char) : char :=
  if N.eqb c (chr "-") || N.eqb c (chr " ") then chr "_" else c.

Definition marker_prefix : pystr := str "img_".

Definition valid_leading (P : platform) (c : char) : bool :=
  isalpha P c || N.eqb c (chr "_").

Definition conversion_identifier (P : platform) (stem : pystr) : pystr :=
  let replaced := map sanitize_char stem in
  match replaced with
  | c :: _ => if valid_leading P c then replaced else marker_prefix ++ replaced
  | [] => replaced
  end.



(** An upper-case four-digit hexadecimal literal. *)
Definition hex_digit (d : Z) : char :=
  Z.to_N (if d <? 10 then Z.of_N (chr "0") + d else Z.of_N (chr "A") + (d - 10)).

Definition hex4_literal (v : Z) : pystr :=
  str "0x" ++ [hex_digit (v / 4096 mod 16); hex_digit (v / 256 mod 16);
               hex_digit (v / 16 mod 16); hex_digit (v mod 16)].

(** The value of a literal, read back digit by digit. *)
Definition hex_value (c : char) : option Z :=
  if (48 <=? c)%N && (c <=? 57)%N then Some (Z.of_N c - 48)
  else if (65 <=? c)%N && (c <=? 70)%N then Some (Z.of_N c - 55)
  else None.

Definition literal_value (lit : pystr) : option Z :=
  match lit with
  | [z; x; d3; d2; d1; d0] =>
      if N.eqb z (chr "0") && N.eqb x (chr "x")
      then
        match hex_value d3, hex_value d2, hex_value d1, hex_value d0 with
        | Some a, Some b, Some c, Some d => Some (4096 * a + 256 * b + 16 * c + d)
        | _, _, _, _ => None
        end
      else None
  | _ => None
  end.

(** Pixel Packer, in the words of its contract: the top five bits of red,
    the top six of green and the top five of blue, red high, green in the
    middle, blue low. *)
Definition packed_pixel (px : Byte.byte * Byte.byte * Byte.byte) : Z :=
  let '(r, g, b) := px in
  let red := Z.of_N (Byte.to_N r) in
  let green := Z.of_N (Byte.to_N g) in
  let blue := Z.of_N (Byte.to_N b) in
  Z.lor (Z.lor (Z.shiftl (Z.land red 0xF8) 8) (Z.shiftl (Z.land green 0xFC) 3))
        (Z.shiftr blue 3).

(** Packed Pixel Buffer: the packer's value of every pixel, row 0 first,
    left to right within a row. *)
Definition packed_buffer (img : image) : list Z :=
  flat_map (fun y => map (fun x => packed_pixel (img_array img y x))
                         (seq 0 (width img)))
           (seq 0 (height img)).

(** Artifact Generator, section by section. *)
Definition provenance_comment (filename : pystr) (w h : nat) : list pystr :=
  [ str "/*";
    str " * Generated from: " ++ filename;
    str " * Image size: " ++ fmt_d w ++ str "x" ++ fmt_d h ++ str " pixels";
    str " * Format: RGB565";
    str " */" ].

Definition inclusion_guard : list pystr :=
  [ str "#pragma once"; str "#include <stdint.h>" ].

Definition dimension_constants (P : platform) (id : pystr) (w h : nat)
  : list pystr :=
  [ str "#define " ++ upper P id ++ str "_WIDTH  " ++ fmt_d w;
    str "#define " ++ upper P id ++ str "_HEIGHT " ++ fmt_d h ].

(** Row [k] of a row-major buffer of rows of [w] values. *)
Definition buffer_row (w : nat) (buffer : list Z) (k : nat) : list Z :=
  take w (drop (k * w) buffer).

Definition array_row (w h : nat) (buffer : list Z) (k : nat) : pystr :=
  str "    " ++ join (str ", ") (map hex4_literal (buffer_row w buffer k))
            ++ (if decide (S k = h) then [] else str ",").

Definition pixel_array (id : pystr) (w h : nat) (buffer : list Z) : list pystr :=
  [ str "const uint16_t " ++ id ++ str "_data[" ++ fmt_d (w * h) ++ str "] = {" ]
  ++ map (array_row w h buffer) (seq 0 h)
  ++ [ str "};" ].

Definition aggregate_type (id : pystr) : list pystr :=
  [ str "typedef struct {";
    str "    const uint16_t* data;";
    str "    uint16_t width;";
    str "    uint16_t height;";
    str "} " ++ id ++ str "_t;" ].

Definition descriptor_instance (P : platform) (id : pystr) : list pystr :=
  [ str "const " ++ id ++ str "_t " ++ id ++ str " = {";
    str "    .data = " ++ id ++ str "_data,";
    str "    .width = " ++ upper P id ++ str "_WIDTH,";
    str "    .height = " ++ upper P id ++ str "_HEIGHT";
    str "};" ].

Definition blank_line : list pystr := [ [] ].

Definition artifact (P : platform) (filename id : pystr) (w h : nat)
  (buffer : list Z) : pystr :=
  join newline
    (provenance_comment filename w h ++ blank_line
     ++ inclusion_guard ++ blank_line
     ++ dimension_constants P id w h ++ blank_line
     ++ pixel_array id w h buffer ++ blank_line
     ++ aggregate_type id ++ blank_line
     ++ descriptor_instance P id).

(** ** A run, file by file

    The world a method leaves is the world it found followed by what the
    method did.  What it does to one file does not depend on the world it
    finds, so it can be read off a run in the empty world. *)

Definition empty_world : world := World [] ∅.

(** [w] followed by the effects [d]: more output, and the files of [d] over
    those of [w]. *)
Definition followed_by (w d : world) : world :=
  World (stdout w ++ stdout d) (files d ∪ files w).

(** The relative paths the log shows a conversion was started for. *)
Definition attempted (log : list diag) : list path :=
  omap (fun d => match d with Converting rel => Some rel | _ => None end) log.

Section Run.
Variable P : platform.
Variable E : env.
Variable self : converter.

(** Every file below the source directory, in the order of the walk. *)
Definition all_files : list path :=
  flat_map (fun '(root, _, files) => map (fun file => root ++ [file]) files)
           (os_walk E (source_dir self)).

Definition eligible_files : list path :=
  List.filter (supported P) all_files.

(** The part of a path below the source directory. *)
Definition relative (file_path : path) : path :=
  drop (length (source_dir self)) file_path.

(** The mirrored output path: the directories of the relative path below
    the output directory, the file name with its extension replaced. *)
Definition mirrored_path (file_path : path) : path :=
  let rel := relative file_path in
  output_dir self ++ removelast rel ++ [stem (default [] (last rel)) ++ str ".h"].

(** One conversion, run on its own. *)
Definition attempt (file_path : path) : result bool * world :=
  convert_image_file P E self file_path (relative file_path) empty_world.

Definition converted (file_path : path) : bool :=
  match fst (attempt file_path) with
  | Ok true => true
  | _ => false
  end.

(** The two ways a file can fail. *)
Definition decode_fails (file_path : path) : bool :=
  match decode E file_path with
  | Some _ => false
  | None => true
  end.

Definition write_fails (file_path : path) : bool :=
  negb (write_ok E (mirrored_path file_path)).

Definition failed (file_path : path) : bool :=
  decode_fails file_path || write_fails file_path.

(** A conversion returns when it can print what it has to report. *)
Definition returns (file_path : path) : bool :=
  match fst (attempt file_path) with
  | Ok _ => true
  | Raise _ => false
  end.

(** The files of a list the loop gets to: all of them up to and including
    the first whose conversion raises. *)
Fixpoint reached (l : list path) : list path :=
  match l with
  | [] => []
  | file_path :: l' =>
      file_path :: (if returns file_path then reached l' else [])
  end.

(** What converting the files of a list, one after the other, does. *)
Definition effects (l : list path) : world :=
  foldr (fun file_path d => followed_by (snd (attempt file_path)) d) empty_world l.

(** Lines 160-165 for one file of the walk: convert it and count. *)
Definition tally_file (file_path : path) (counts : nat * nat) : M (nat * nat) :=
  ok <- convert_image_file P E self file_path (relative file_path) ;;
  ret (if ok : bool then (S (fst counts), snd counts)
       else (fst counts, S (snd counts))).

(** A path the walk can produce: the source directory, directories below
    it, and a file name. *)
Definition below_source (file_path : path) : Prop :=
  exists dirs name, file_path = source_dir self ++ dirs ++ [name].

End Run.

(** Standard output can encode every line the script prints. *)
Definition printable (E : env) : Prop := forall d, print_ok E d = true.

(** A method is oblivious when neither what it returns nor what it does
    depends on the world it starts in. *)
Definition oblivious {A} (m : M A) : Prop :=
  forall w, m w = (fst (m empty_world), followed_by w (snd (m empty_world))).

(** ** Sample platforms and inputs *)

(** CPython with NumPy 2 and with NumPy 1; the Unicode tables are cut down
    to ASCII, which is all the samples use. *)
Definition numpy2 : platform :=
  Platform NEP50 (fun _ => false) (fun c => [c]) (fun s i => take 1 (drop i s)).

Definition numpy1 : platform :=
  Platform Legacy (fun _ => false) (fun c => [c]) (fun s i => take 1 (drop i s)).

Definition rgb (r g b : N) : Byte.byte * Byte.byte * Byte.byte :=
  (default Byte.x00 (Byte.of_N r), default Byte.x00 (Byte.of_N g),
   default Byte.x00 (Byte.of_N b)).

(** Two rows of two pixels: red, green; blue, white. *)
Definition primaries : image :=
  Image 2 2 (fun y x =>
    match y, x with
    | O, O => rgb 255 0 0
    | O, _ => rgb 0 255 0
    | _, O => rgb 0 0 255
    | _, _ => rgb 255 255 255
    end).

Definition red_dot : image := Image 1 1 (fun _ _ => rgb 255 0 0).

(** A source directory [src] holding [a.png] and [a.jpg], both decodable. *)
Definition twins : env :=
  Env (fun p => if decide (p = [str "src"])
                then Some (Dir [str "a.png"; str "a.jpg"] [])
                else None)
      (fun _ => true)
      (fun _ => Some primaries)
      (fun _ => true)
      (fun _ => None)
      (fun _ => true).

(** A source directory with two good images at different depths, a corrupt
    one and a text file. *)
Definition gallery : env :=
  Env (fun p => if decide (p = [str "src"])
                then Some (Dir [str "1 x-y.GIF"; str "notes.txt"; str "broken.bmp"]
                               [(str "icons", Dir [str "home.png"] [])])
                else None)
      (fun _ => true)
      (fun p => if decide (p = [str "src"; str "broken.bmp"]) then None
                else Some primaries)
      (fun _ => true)
      (fun _ => None)
      (fun _ => true).

(** A standard output that encodes ASCII only, as under the C locale. *)
Definition ascii_path (p : path) : bool :=
  forallb (forallb (fun c => (c <? 128)%N)) p.

Definition ascii_stdout (d : diag) : bool :=
  match d with
  | ErrorProcessing p | Converting p | Generated p | ErrorConverting p
  | ScanningSource p | OutputDirectory p => ascii_path p
  | _ => true
  end.

(** [e] with an acute accent. *)
Definition e_acute : pystr := [233%N].

(** A source directory holding a corrupt [cafe.png], its e accented, and a good
    [logo.png], read by a process whose standard output is ASCII. *)
Definition cafe : env :=
  Env (fun p => if decide (p = [str "src"])
                then Some (Dir [str "caf" ++ e_acute ++ str ".png"; str "logo.png"] [])
                else None)
      (fun _ => true)
      (fun p => if decide (p = [str "src"; str "logo.png"]) then Some red_dot
                else None)
      (fun _ => true)
      (fun _ => None)
      ascii_stdout.

(** A source directory with one red pixel in [dot.png]. *)
Definition dot : env :=
  Env (fun p => if decide (p = [str "src"])
                then Some (Dir [str "dot.png"] [])
                else None)
      (fun _ => true)
      (fun _ => Some red_dot)
      (fun _ => true)
      (fun _ => None)
      (fun _ => true).

(** A source directory whose [a.png] decodes but whose header cannot be
    written in full: the disk fills up after ten characters. *)
Definition full_disk : env :=
  Env (fun p => if decide (p = [str "src"])
                then Some (Dir [str "a.png"; str "readme.md"] [])
                else None)
      (fun _ => true)
      (fun _ => Some red_dot)
      (fun _ => false)
      (fun _ => Some 10%nat)
      (fun _ => true).

(** ** Ranges checked by evaluation *)

(** [count_from z k] is [z, z + 1, ..., z + k - 1]. *)
Fixpoint count_from (z : Z) (k : nat) : list Z :=
  match k with
  | O => []
  | S k' => z :: count_from (z + 1) k'
  end.

Definition below (n : Z) : list Z := count_from 0 (Z.to_nat n).

(** ** Reading a log and a pixel back *)

(** The output paths the log reports as generated, and the paths it reports
    an error for. *)
Definition generated_paths (log : list diag) : list path :=
  omap (fun d => match d with Generated output_file => Some output_file | _ => None end)
       log.

Definition reported_errors (log : list diag) : list path :=
  omap (fun d => match d with
                 | ErrorProcessing image_path | ErrorConverting image_path =>
                     Some image_path
                 | _ => None
                 end)
       log.

(** [src/examples.py], lines 95-97: how the C code the script suggests
    takes a 16-bit pixel apart. *)
Definition unpack_rgb565 (pixel : Z) : Z * Z * Z :=
  (Z.land (Z.shiftr pixel 11) 0x1F, Z.land (Z.shiftr pixel 5) 0x3F,
   Z.land pixel 0x1F).

(** * Properties *)

(** ** Checking a bounded range by evaluation *)

Lemma in_count_from (k : nat) (a z : Z) :
  a <= z < a + Z.of_nat k -> In z (count_from a k).
Proof.
  revert a. induction k as [|k IH]; intros a Hz; [lia|].
  cbn [count_from]. destruct (Z.eq_dec a z) as [->|Hne]; [left; reflexivity|].
  right. apply IH. lia.
Qed.

Lemma forall_below (n : Z) (f : Z -> bool) :
  forallb f (below n) = true -> forall z, 0 <= z < n -> f z = true.
Proof.
  intros Hall z Hz.
  rewrite forallb_forall in Hall. apply Hall.
  apply in_count_from. lia.
Qed.

(** ** The packer on Python ints *)

Lemma land_F8 r : 0 <= r < 256 -> Z.land r 0xF8 = 8 * (r / 8).
Proof.
  intros Hr. apply Z.eqb_eq.
  apply (forall_below 256 (fun r => Z.land r 0xF8 =? 8 * (r / 8))); [|exact Hr].
  vm_compute. reflexivity.
Qed.

Lemma land_FC g : 0 <= g < 256 -> Z.land g 0xFC = 4 * (g / 4).
Proof.
  intros Hg. apply Z.eqb_eq.
  apply (forall_below 256 (fun g => Z.land g 0xFC =? 4 * (g / 4))); [|exact Hg].
  vm_compute. reflexivity.
Qed.

(** Fields that do not overlap are or-ed by adding them. *)
Lemma lor_disjoint a c n :
  0 <= n -> 0 <= c < 2 ^ n -> Z.lor (a * 2 ^ n) c = a * 2 ^ n + c.
Proof.
  intros Hn Hc.
  assert (Hland : Z.land (a * 2 ^ n) c = 0).
  { apply Z.bits_inj'. intros m Hm.
    rewrite Z.land_spec, Z.bits_0.
    destruct (Z.lt_ge_cases m n) as [Hlt|Hge].
    - rewrite Z.mul_pow2_bits_low by lia. reflexivity.
    - rewrite <- (Z.mod_small c (2 ^ n)) by lia.
      rewrite Z.mod_pow2_bits_high by lia. apply andb_false_r. }
  rewrite <- (Z.lxor_lor _ _ Hland). symmetry. apply Z.add_nocarry_lxor. exact Hland.
Qed.

(** The packed value as a sum of its three fields. *)
Lemma rgb888_to_rgb565_fields (r g b : Z) :
  0 <= r < 256 -> 0 <= g < 256 -> 0 <= b < 256 ->
  rgb888_to_rgb565 r g b = 2048 * (r / 8) + 32 * (g / 4) + b / 8.
Proof.
  intros Hr Hg Hb. unfold rgb888_to_rgb565. cbn [bor lshift_lit and_lit rshift_lit pyint].
  rewrite land_F8, land_FC by assumption.
  rewrite !Z.shiftl_mul_pow2, Z.shiftr_div_pow2 by lia.
  change (2 ^ 8) with 256. change (2 ^ 3) with 8.
  assert (0 <= r / 8 < 32) by (split; [apply Z.div_pos|apply Z.div_lt_upper_bound]; lia).
  assert (0 <= g / 4 < 64) by (split; [apply Z.div_pos|apply Z.div_lt_upper_bound]; lia).
  assert (0 <= b / 8 < 32) by (split; [apply Z.div_pos|apply Z.div_lt_upper_bound]; lia).
  replace (8 * (r / 8) * 256) with ((r / 8) * 2 ^ 11) by (change (2 ^ 11) with 2048; lia).
  rewrite (lor_disjoint (r / 8) (4 * (g / 4) * 8) 11) by (change (2 ^ 11) with 2048; lia).
  replace (r / 8 * 2 ^ 11 + 4 * (g / 4) * 8) with ((64 * (r / 8) + g / 4) * 2 ^ 5)
    by (change (2 ^ 11) with 2048; change (2 ^ 5) with 32; lia).
  rewrite lor_disjoint by (change (2 ^ 5) with 32; lia).
  change (2 ^ 5) with 32. lia.
Qed.

(** What the specification asks of the packer, for Python ints. *)
Lemma rgb888_to_rgb565_int (r g b : Z) :
  0 <= r < 256 -> 0 <= g < 256 -> 0 <= b < 256 ->
  let v := rgb888_to_rgb565 r g b in
  v = Z.lor (Z.lor (Z.shiftl (Z.land r 0xF8) 8) (Z.shiftl (Z.land g 0xFC) 3))
            (Z.shiftr b 3)
  /\ 0 <= v < 2 ^ 16
  /\ Z.shiftr v 11 = Z.shiftr r 3
  /\ Z.land (Z.shiftr v 5) 0x3F = Z.shiftr g 2
  /\ Z.land v 0x1F = Z.shiftr b 3.
Proof.
  intros Hr Hg Hb v. split; [reflexivity|].
  assert (Hv : v = 2048 * (r / 8) + 32 * (g / 4) + b / 8)
    by (apply rgb888_to_rgb565_fields; assumption).
  clearbody v.
  assert (0 <= r / 8 < 32) by (split; [apply Z.div_pos|apply Z.div_lt_upper_bound]; lia).
  assert (0 <= g / 4 < 64) by (split; [apply Z.div_pos|apply Z.div_lt_upper_bound]; lia).
  assert (0 <= b / 8 < 32) by (split; [apply Z.div_pos|apply Z.div_lt_upper_bound]; lia).
  change 0x3F with (Z.ones 6). change 0x1F with (Z.ones 5).
  rewrite !Z.land_ones, !Z.shiftr_div_pow2 by lia.
  change (2 ^ 16) with 65536. change (2 ^ 11) with 2048. change (2 ^ 5) with 32.
  change (2 ^ 6) with 64. change (2 ^ 3) with 8. change (2 ^ 2) with 4.
  subst v. repeat split; try lia.
  - symmetry. apply (Z.div_unique _ _ _ (32 * (g / 4) + b / 8)); lia.
  - assert (Hq : (2048 * (r / 8) + 32 * (g / 4) + b / 8) / 32 = 64 * (r / 8) + g / 4)
      by (symmetry; apply (Z.div_unique _ _ _ (b / 8)); lia).
    rewrite Hq. symmetry. apply (Z.mod_unique _ _ (r / 8)); lia.
  - symmetry. apply (Z.mod_unique _ _ (64 * (r / 8) + g / 4)); lia.
Qed.

Example rgb888_to_rgb565_primaries :
  rgb888_to_rgb565 255 0 0 = 0xF800 /\ rgb888_to_rgb565 0 255 0 = 0x07E0
  /\ rgb888_to_rgb565 0 0 255 = 0x001F /\ rgb888_to_rgb565 255 255 255 = 0xFFFF
  /\ rgb888_to_rgb565 0 0 0 = 0x0000.
Proof. repeat split. Qed.

(** ** The packer on NumPy scalars *)

Lemma byte_range (b : Byte.byte) : 0 <= Z.of_N (Byte.to_N b) < 256.
Proof. pose proof (Byte.to_N_bounded b). lia. Qed.

Lemma wrap_int64_small z : 0 <= z < 2 ^ 16 -> wrap int64 z = z.
Proof.
  intros Hz. unfold wrap. rewrite Z.mod_small; [lia|].
  change (2 ^ 16) with 65536 in Hz.
  change (2 ^ 63) with 9223372036854775808.
  change (2 ^ 64) with 18446744073709551616. lia.
Qed.

Lemma lor_fields (R G C : Z) :
  0 <= R < 32 -> 0 <= G < 64 -> 0 <= C < 32 ->
  Z.lor (2048 * R) (32 * G) = 2048 * R + 32 * G
  /\ Z.lor (2048 * R + 32 * G) C = 2048 * R + 32 * G + C.
Proof.
  intros HR HG HC. split.
  - replace (2048 * R) with (R * 2 ^ 11) by (change (2 ^ 11) with 2048; lia).
    apply lor_disjoint; change (2 ^ 11) with 2048; lia.
  - replace (2048 * R + 32 * G) with ((64 * R + G) * 2 ^ 5)
      by (change (2 ^ 5) with 32; lia).
    apply lor_disjoint; change (2 ^ 5) with 32; lia.
Qed.

(** Under legacy promotion the first operation widens, and the scalars
    compute what the ints compute. *)
Lemma legacy_red (r : Byte.byte) :
  @lshift_lit _ (npnumber Legacy) (@and_lit _ (npnumber Legacy) (u8 r) 0xF8) 8
  = NpScalar int64 (2048 * (Z.of_N (Byte.to_N r) / 8)).
Proof. destruct r; vm_compute; reflexivity. Qed.

Lemma legacy_green (g : Byte.byte) :
  @lshift_lit _ (npnumber Legacy) (@and_lit _ (npnumber Legacy) (u8 g) 0xFC) 3
  = NpScalar int64 (32 * (Z.of_N (Byte.to_N g) / 4)).
Proof. destruct g; vm_compute; reflexivity. Qed.

Lemma legacy_blue (b : Byte.byte) :
  @rshift_lit _ (npnumber Legacy) (u8 b) 3
  = NpScalar int64 (Z.of_N (Byte.to_N b) / 8).
Proof. destruct b; vm_compute; reflexivity. Qed.

Lemma rgb888_to_rgb565_legacy (r g b : Byte.byte) :
  rgb888_to_rgb565 (num := npnumber Legacy) (u8 r) (u8 g) (u8 b)
  = NpScalar int64 (rgb888_to_rgb565 (Z.of_N (Byte.to_N r)) (Z.of_N (Byte.to_N g))
                                     (Z.of_N (Byte.to_N b))).
Proof.
  pose proof (byte_range r) as Hr. pose proof (byte_range g) as Hg.
  pose proof (byte_range b) as Hb.
  rewrite rgb888_to_rgb565_fields by assumption.
  unfold rgb888_to_rgb565 at 1.
  rewrite legacy_red, legacy_green, legacy_blue.
  set (R := Z.of_N (Byte.to_N r) / 8). set (G := Z.of_N (Byte.to_N g) / 4).
  set (C := Z.of_N (Byte.to_N b) / 8).
  assert (HR : 0 <= R < 32) by (subst R; split; [apply Z.div_pos|apply Z.div_lt_upper_bound]; lia).
  assert (HG : 0 <= G < 64) by (subst G; split; [apply Z.div_pos|apply Z.div_lt_upper_bound]; lia).
  assert (HC : 0 <= C < 32) by (subst C; split; [apply Z.div_pos|apply Z.div_lt_upper_bound]; lia).
  destruct (lor_fields R G C HR HG HC) as [H1 H2].
  cbn [bor npnumber]. unfold np_op. cbn [dtype_of value promote_types].
  rewrite H1, (wrap_int64_small (2048 * R + 32 * G))
    by (change (2 ^ 16) with 65536; lia).
  rewrite H2, wrap_int64_small by (change (2 ^ 16) with 65536; lia).
  reflexivity.
Qed.

(** Under NEP 50 every intermediate value stays a [uint8]. *)
Lemma rgb888_to_rgb565_nep50_uint8 (r g b : Byte.byte) :
  let v := rgb888_to_rgb565 (num := npnumber NEP50) (u8 r) (u8 g) (u8 b) in
  dtype_of v = uint8 /\ 0 <= value v < 2 ^ 8.
Proof.
  cbn. split; [reflexivity|]. apply Z.mod_pos_bound. reflexivity.
Qed.

(** Whatever the promotion, the value handed to [format] has at most
    sixteen bits. *)
Lemma call_site_value_range (P : platform) px : 0 <= call_site_value P px < 65536.
Proof.
  destruct px as [[r g] b]. unfold call_site_value.
  destruct (numpy P).
  - rewrite rgb888_to_rgb565_legacy. cbn [value].
    pose proof (byte_range r). pose proof (byte_range g). pose proof (byte_range b).
    destruct (rgb888_to_rgb565_int (Z.of_N (Byte.to_N r)) (Z.of_N (Byte.to_N g))
                (Z.of_N (Byte.to_N b))) as (_ & Hv & _); assumption.
  - pose proof (rgb888_to_rgb565_nep50_uint8 r g b) as [_ Hv].
    change (2 ^ 8) with 256 in Hv. cbv zeta in Hv. lia.
Qed.

(** ** Hexadecimal literals *)

Example hex_digits_upper :
  map hex_digit [0; 1; 2; 3; 4; 5; 6; 7; 8; 9; 10; 11; 12; 13; 14; 15]
  = str "0123456789ABCDEF".
Proof. reflexivity. Qed.

Lemma fmt_04X_hex4 (v : Z) :
  0 <= v < 65536 -> str "0x" ++ fmt_04X v = hex4_literal v.
Proof.
  intros Hv.
  assert (Hall : forallb (fun v => bool_decide (str "0x" ++ fmt_04X v = hex4_literal v))
                         (below 65536) = true) by (vm_compute; reflexivity).
  pose proof (forall_below _ _ Hall v Hv) as H. cbv beta in H.
  apply bool_decide_eq_true in H. exact H.
Qed.

(** A literal reads back as the value it was printed from. *)
Lemma hex_value_digit (d : Z) : 0 <= d < 16 -> hex_value (hex_digit d) = Some d.
Proof.
  intros Hd.
  assert (Hall : forallb (fun d => bool_decide (hex_value (hex_digit d) = Some d))
                         (below 16) = true) by reflexivity.
  pose proof (forall_below _ _ Hall d Hd) as H. cbv beta in H.
  apply bool_decide_eq_true in H. exact H.
Qed.

Lemma literal_value_hex4 (v : Z) :
  0 <= v < 65536 -> literal_value (hex4_literal v) = Some v.
Proof.
  intros Hv. unfold hex4_literal, literal_value. cbn [str list_ascii_of_string map app].
  change (N.eqb (N_of_ascii "0") (chr "0") && N.eqb (N_of_ascii "x") (chr "x")) with true.
  cbv iota.
  rewrite !hex_value_digit by (apply Z.mod_pos_bound; lia).
  f_equal. clear -Hv.
  pose proof (Z.div_mod v 16 ltac:(lia)).
  pose proof (Z.div_mod v 256 ltac:(lia)).
  pose proof (Z.div_mod v 4096 ltac:(lia)).
  pose proof (Z.div_mod (v / 16) 16 ltac:(lia)).
  pose proof (Z.div_mod (v / 256) 16 ltac:(lia)).
  pose proof (Z.div_mod (v / 4096) 16 ltac:(lia)).
  pose proof (Z.mod_pos_bound v 16 ltac:(lia)).
  pose proof (Z.mod_pos_bound (v / 16) 16 ltac:(lia)).
  pose proof (Z.mod_pos_bound (v / 256) 16 ltac:(lia)).
  pose proof (Z.mod_pos_bound (v / 4096) 16 ltac:(lia)).
  assert (v / 4096 < 16) by (apply Z.div_lt_upper_bound; lia).
  assert (0 <= v / 4096) by (apply Z.div_pos; lia).
  rewrite (Z.mod_small (v / 4096) 16) in * by lia.
  assert (v / 16 / 16 = v / 256) by (rewrite Z.div_div by lia; reflexivity).
  assert (v / 256 / 16 = v / 4096) by (rewrite Z.div_div by lia; reflexivity).
  lia.
Qed.

(** ** Loops that append are maps *)

Lemma fold_left_append_ext {A B} (g : list B -> A -> list B) (f : A -> B)
  (l : list A) (acc : list B) :
  (forall acc x, In x l -> g acc x = acc ++ [f x]) ->
  fold_left g l acc = acc ++ map f l.
Proof.
  revert acc. induction l as [|x l IH]; intros acc Hg; cbn.
  - symmetry. apply app_nil_r.
  - rewrite IH by (intros; apply Hg; right; assumption).
    rewrite Hg by (left; reflexivity).
    rewrite <- app_assoc. reflexivity.
Qed.

(** Row [y] of a buffer laid out row after row. *)
Lemma buffer_row_flat_map (f : nat -> list Z) (w : nat) :
  (forall y, length (f y) = w) ->
  forall n s y, (y < n)%nat ->
    buffer_row w (flat_map f (seq s n)) y = f (s + y)%nat.
Proof.
  intros Hlen. unfold buffer_row.
  induction n as [|n IH]; intros s y Hy; [lia|].
  cbn [seq flat_map]. destruct y as [|y].
  - cbn [Nat.mul]. rewrite drop_0, Nat.add_0_r.
    apply take_app_length'. symmetry. apply Hlen.
  - replace (S y * w)%nat with (length (f s) + y * w)%nat by (rewrite Hlen; lia).
    rewrite drop_app_add. rewrite IH by lia. f_equal. lia.
Qed.

Lemma length_call_site_buffer (P : platform) (img : image) :
  length (call_site_buffer P img) = (width img * height img)%nat.
Proof.
  unfold call_site_buffer. generalize 0%nat at 2.
  induction (height img) as [|h IH]; intros s; cbn [seq flat_map].
  - cbn. lia.
  - rewrite length_app, length_map, length_seq, IH. lia.
Qed.

Lemma call_site_buffer_range (P : platform) (img : image) :
  Forall (fun v => 0 <= v < 65536) (call_site_buffer P img).
Proof.
  unfold call_site_buffer. apply Forall_forall. intros v Hv.
  apply list_elem_of_In, in_flat_map in Hv. destruct Hv as (y & _ & Hv).
  apply in_map_iff in Hv. destruct Hv as (x & <- & _).
  apply call_site_value_range.
Qed.

Section Generator.
Variable P : platform.

Lemma row_pixels_literals (img : image) (y : nat) :
  row_pixels P img y
  = map hex4_literal
        (map (fun x => call_site_value P (img_array img y x)) (seq 0 (width img))).
Proof.
  unfold row_pixels.
  rewrite (fold_left_append_ext _
             (fun x => hex4_literal (call_site_value P (img_array img y x)))).
  - rewrite map_map. reflexivity.
  - intros acc x _. destruct (img_array img y x) as [[r g] b] eqn:Hpx.
    do 2 f_equal. apply fmt_04X_hex4.
    apply (call_site_value_range P (r, g, b)).
Qed.

Lemma pixels_rows (img : image) :
  pixels P img
  = map (array_row (width img) (height img) (call_site_buffer P img))
        (seq 0 (height img)).
Proof.
  unfold pixels.
  rewrite (fold_left_append_ext _
             (fun y => str "    " ++ join (str ", ") (row_pixels P img y)
                       ++ (if decide (S y = height img) then [] else str ","))).
  - cbn [app]. apply map_ext_in. intros y Hy. apply in_seq in Hy.
    unfold array_row. rewrite row_pixels_literals. do 3 f_equal.
    unfold call_site_buffer.
    rewrite (buffer_row_flat_map _ (width img)); [reflexivity| |lia].
    intros y'. rewrite length_map, length_seq. reflexivity.
  - intros acc y Hy. apply in_seq in Hy.
    destruct (Z.ltb_spec (Z.of_nat y) (Z.of_nat (height img) - 1)) as [Hlt|Hge].
    + rewrite decide_False by lia. reflexivity.
    + rewrite decide_True by lia. rewrite app_nil_r. reflexivity.
Qed.
End Generator.

(** ** Identifiers *)

Lemma replace_twice (s : pystr) :
  replace (chr " ") (chr "_") (replace (chr "-") (chr "_") s) = map sanitize_char s.
Proof.
  unfold replace. rewrite map_map. apply map_ext. intros c.
  unfold sanitize_char.
  destruct (N.eqb_spec c (chr "-")) as [->|Hh]; [reflexivity|].
  cbn [orb]. destruct (N.eqb c (chr " ")); reflexivity.
Qed.

Lemma sanitize_char_idem (c : char) : sanitize_char (sanitize_char c) = sanitize_char c.
Proof.
  unfold sanitize_char.
  destruct (N.eqb c (chr "-") || N.eqb c (chr " ")) eqn:Hc; [reflexivity|].
  rewrite Hc. reflexivity.
Qed.

Lemma sanitize_idem (s : pystr) :
  map sanitize_char (map sanitize_char s) = map sanitize_char s.
Proof. rewrite map_map. apply map_ext. intros c. apply sanitize_char_idem. Qed.

Section Identifier.
Variable P : platform.

Lemma var_name_identifier (s : pystr) :
  s <> [] -> var_name P s = Some (conversion_identifier P s).
Proof.
  intros Hs. unfold var_name, conversion_identifier. rewrite replace_twice.
  destruct s as [|c s]; [congruence|]. cbn [map].
  unfold valid_leading.
  destruct (isalpha P (sanitize_char c)), (N.eqb (sanitize_char c) (chr "_"));
    reflexivity.
Qed.

Lemma conversion_identifier_nonempty (s : pystr) :
  s <> [] -> conversion_identifier P s <> [].
Proof.
  intros Hs. unfold conversion_identifier.
  destruct s as [|c s]; [congruence|]. cbn [map].
  destruct (valid_leading P (sanitize_char c)); discriminate.
Qed.

Lemma conversion_identifier_fixed (t : pystr) (c : char) (rest : pystr) :
  t = c :: rest -> valid_leading P c = true -> map sanitize_char t = t ->
  conversion_identifier P t = t.
Proof.
  intros -> Hc Hfix. unfold conversion_identifier. rewrite Hfix, Hc. reflexivity.
Qed.

Lemma conversion_identifier_idem (s : pystr) :
  conversion_identifier P (conversion_identifier P s) = conversion_identifier P s.
Proof.
  destruct s as [|c s]; [reflexivity|].
  unfold conversion_identifier at 2 3. cbn [map].
  destruct (valid_leading P (sanitize_char c)) eqn:Hc.
  - apply (conversion_identifier_fixed _ (sanitize_char c) (map sanitize_char s));
      [reflexivity|exact Hc|].
    change (map sanitize_char (map sanitize_char (c :: s)) = map sanitize_char (c :: s)).
    apply sanitize_idem.
  - apply (conversion_identifier_fixed _ (chr "i")
             (str "mg_" ++ sanitize_char c :: map sanitize_char s));
      [reflexivity|reflexivity|].
    rewrite map_app.
    change (map sanitize_char (sanitize_char c :: map sanitize_char s))
      with (map sanitize_char (map sanitize_char (c :: s))).
    rewrite sanitize_idem. reflexivity.
Qed.

Lemma conversion_identifier_valid (s : pystr) (c : char) (rest : pystr) :
  conversion_identifier P s = c :: rest -> valid_leading P c = true.
Proof.
  unfold conversion_identifier. destruct s as [|c0 s]; [discriminate|]. cbn [map].
  destruct (valid_leading P (sanitize_char c0)) eqn:Hc.
  - intros [= <- _]. exact Hc.
  - intros [= <- _]. reflexivity.
Qed.

Lemma upper_app (s t : pystr) : upper P (s ++ t) = upper P s ++ upper P t.
Proof. unfold upper. rewrite map_app, concat_app. reflexivity. Qed.

End Identifier.

(** ** File names *)

Lemma split_at_suffix_bounds (name : pystr) (i : nat) :
  split_at_suffix name = Some i -> (0 < i < length name - 1)%nat.
Proof.
  unfold split_at_suffix. destruct (rfind (chr ".") name) as [j|]; [|discriminate].
  destruct (Nat.ltb_spec 0 j), (Nat.ltb_spec j (length name - 1)); cbn;
    intros [= <-]; lia.
Qed.

Lemma stem_suffix (name : pystr) : stem name ++ suffix name = name.
Proof.
  unfold stem, suffix. destruct (split_at_suffix name).
  - apply take_drop.
  - apply app_nil_r.
Qed.

Lemma stem_nonempty (name : pystr) : name <> [] -> stem name <> [].
Proof.
  intros Hname. unfold stem. destruct (split_at_suffix name) as [i|] eqn:Hi; [|exact Hname].
  apply split_at_suffix_bounds in Hi.
  destruct name as [|c name]; [congruence|]. destruct i; [lia|]. discriminate.
Qed.

Lemma suffix_stem_nonempty (name : pystr) : suffix name <> [] -> stem name <> [].
Proof.
  intros Hs. apply stem_nonempty. intros ->. apply Hs. reflexivity.
Qed.



(** ** Worlds *)

Lemma followed_by_empty_l (d : world) : followed_by empty_world d = d.
Proof.
  destruct d as [out fs]. unfold followed_by. cbn.
  rewrite (right_id_L ∅ (∪)). reflexivity.
Qed.

Lemma followed_by_empty_r (w : world) : followed_by w empty_world = w.
Proof.
  destruct w as [out fs]. unfold followed_by. cbn.
  rewrite app_nil_r, (left_id_L ∅ (∪)). reflexivity.
Qed.

Lemma followed_by_assoc (w d1 d2 : world) :
  followed_by (followed_by w d1) d2 = followed_by w (followed_by d1 d2).
Proof.
  unfold followed_by. cbn. rewrite app_assoc, (assoc_L (∪)). reflexivity.
Qed.

(** Doing the same thing again leaves the files as they are. *)
Lemma followed_by_twice_files (w d : world) :
  files (followed_by (followed_by w d) d) = files (followed_by w d).
Proof.
  unfold followed_by. cbn. rewrite (assoc_L (∪)), (idemp_L (∪)). reflexivity.
Qed.

(** ** Oblivious methods *)

Lemma oblivious_result {A} (m : M A) (w : world) :
  oblivious m -> fst (m w) = fst (m empty_world).
Proof. intros Hm. rewrite Hm. reflexivity. Qed.

Lemma oblivious_ret {A} (a : A) : oblivious (ret a).
Proof. intros w. unfold ret. cbn. rewrite followed_by_empty_r. reflexivity. Qed.

Lemma oblivious_raise {A} (e : exn) : oblivious (raise (A := A) e).
Proof. intros w. unfold raise. cbn. rewrite followed_by_empty_r. reflexivity. Qed.

Lemma oblivious_print (E : env) (d : diag) : oblivious (print E d).
Proof.
  intros w. unfold print, followed_by. destruct (print_ok E d); cbn.
  - rewrite (left_id_L ∅ (∪)). reflexivity.
  - rewrite app_nil_r, (left_id_L ∅ (∪)). destruct w; reflexivity.
Qed.

Lemma oblivious_bind {A B} (m : M A) (k : A -> M B) :
  oblivious m -> (forall a, oblivious (k a)) -> oblivious (bind m k).
Proof.
  intros Hm Hk w. unfold bind. rewrite (Hm w).
  destruct (m empty_world) as [[a|e] d]; cbn [fst snd].
  - rewrite (Hk a (followed_by w d)), (Hk a d).
    cbn [fst snd]. rewrite followed_by_assoc. reflexivity.
  - reflexivity.
Qed.

Lemma oblivious_try_except {A} (body handler : M A) :
  oblivious body -> oblivious handler -> oblivious (try_except body handler).
Proof.
  intros Hb Hh w. unfold try_except. rewrite (Hb w).
  destruct (body empty_world) as [[a|[| |c]] d]; cbn [fst snd]; try reflexivity.
  - rewrite (Hh (followed_by w d)), (Hh d). cbn [fst snd].
    rewrite followed_by_assoc. reflexivity.
  - rewrite (Hh (followed_by w d)), (Hh d). cbn [fst snd].
    rewrite followed_by_assoc. reflexivity.
Qed.

Lemma oblivious_for_each {A S} (l : list A) (body : A -> S -> M S) (s : S) :
  (forall x s, oblivious (body x s)) -> oblivious (for_each l body s).
Proof.
  intros Hbody. revert s. induction l as [|x l IH]; intros s; cbn [for_each].
  - apply oblivious_ret.
  - apply oblivious_bind; [apply Hbody|]. intros s'. apply IH.
Qed.

Create HintDb oblivious.
#[local] Hint Resolve oblivious_ret oblivious_raise oblivious_print
  oblivious_bind oblivious_try_except oblivious_for_each : oblivious.

Section Oblivious.
Variable P : platform.
Variable E : env.

Lemma oblivious_write_file (output_file : path) (c_content : pystr) :
  oblivious (write_file E output_file c_content).
Proof.
  intros w. unfold write_file, followed_by.
  destruct (write_ok E output_file); [|destruct (torn E output_file)]; cbn.
  - rewrite insert_empty, insert_union_singleton_l, app_nil_r. reflexivity.
  - rewrite insert_empty, insert_union_singleton_l, app_nil_r. reflexivity.
  - rewrite app_nil_r, (left_id_L ∅ (∪)). destruct w; reflexivity.
Qed.

Lemma oblivious_image_to_c_array (image_path : path) :
  oblivious (image_to_c_array P E image_path).
Proof.
  unfold image_to_c_array.
  destruct (decode E image_path); [|auto with oblivious].
  destruct (var_name P _); auto with oblivious.
Qed.

Lemma oblivious_convert_image_file (self : converter) (image_path relative_path : path) :
  oblivious (convert_image_file P E self image_path relative_path).
Proof.
  unfold convert_image_file.
  apply oblivious_try_except; [|auto with oblivious].
  apply oblivious_bind; [apply oblivious_print|]. intros _.
  apply oblivious_bind; [apply oblivious_image_to_c_array|]. intros [c|];
    [|apply oblivious_ret].
  destruct (with_suffix relative_path (str ".h")); [|apply oblivious_raise].
  apply oblivious_bind; [apply oblivious_write_file|]. intros _.
  auto with oblivious.
Qed.

Lemma oblivious_visit_file (self : converter) (root_path : path) (file : pystr)
  (counts : nat * nat) :
  oblivious (visit_file P E self root_path file counts).
Proof.
  unfold visit_file. destruct counts as [c e].
  destruct (supported P _); [|apply oblivious_ret].
  destruct (relative_to _ _); [|apply oblivious_raise].
  apply oblivious_bind; [apply oblivious_convert_image_file|].
  intros [|]; apply oblivious_ret.
Qed.

Lemma oblivious_scan_and_convert (self : converter) :
  oblivious (scan_and_convert P E self).
Proof.
  unfold scan_and_convert.
  repeat (apply oblivious_bind; [apply oblivious_print|]; intros _).
  apply oblivious_bind.
  - apply oblivious_for_each. intros [[root dirs] fs] counts.
    apply oblivious_for_each. intros file counts'. apply oblivious_visit_file.
  - intros counts.
    repeat (apply oblivious_bind; [apply oblivious_print|]; intros _).
    apply oblivious_ret.
Qed.

Lemma oblivious_init (source_dir output_dir : path) :
  oblivious (__init__ E source_dir output_dir).
Proof.
  unfold __init__. destruct (source E source_dir); [|apply oblivious_raise].
  destruct (mkdir_ok E output_dir); auto with oblivious.
Qed.

Lemma oblivious_main_body (a : args) : oblivious (main_body P E a).
Proof.
  unfold main_body.
  apply oblivious_bind; [apply oblivious_init|]. intros conv.
  apply oblivious_bind; [apply oblivious_scan_and_convert|]. intros counts.
  destruct (0 <? snd counts)%nat; auto with oblivious.
Qed.

Lemma oblivious_try_main (body : M unit) : oblivious body -> oblivious (try_main E body).
Proof.
  intros Hb w. unfold try_main. rewrite (Hb w).
  destruct (body empty_world) as [[a|[| |c]] d]; cbn [fst snd]; try reflexivity.
  - pose proof (oblivious_bind (print E ErrorNotFound)
                  (fun _ => raise (A := unit) (SystemExit 1))
                  (oblivious_print E _) (fun _ => oblivious_raise _)) as Hh.
    rewrite (Hh (followed_by w d)), (Hh d). cbn [fst snd].
    rewrite followed_by_assoc. reflexivity.
  - pose proof (oblivious_bind (print E UnexpectedError)
                  (fun _ => raise (A := unit) (SystemExit 1))
                  (oblivious_print E _) (fun _ => oblivious_raise _)) as Hh.
    rewrite (Hh (followed_by w d)), (Hh d). cbn [fst snd].
    rewrite followed_by_assoc. reflexivity.
Qed.

End Oblivious.

(** ** Paths *)

Lemma relative_to_app (base r : path) : relative_to (base ++ r) base = Some r.
Proof.
  induction base as [|b base IH]; cbn.
  - destruct r; reflexivity.
  - rewrite decide_True by reflexivity. exact IH.
Qed.

Lemma with_suffix_snoc (dirs : path) (name suf : pystr) :
  with_suffix (dirs ++ [name]) suf = Some (dirs ++ [stem name ++ suf]).
Proof.
  unfold with_suffix. rewrite last_snoc, removelast_last. reflexivity.
Qed.

Lemma not_supported_empty : [] ∉ SUPPORTED_FORMATS.
Proof.
  unfold SUPPORTED_FORMATS. intros H.
  repeat (apply elem_of_cons in H; destruct H as [H|H]; [discriminate|]).
  inversion H.
Qed.

(** Every root the walk reports lies below the top it started from. *)
Lemma walk_roots (t : tree) :
  forall top, Forall (fun '(root, _, _) => exists sub : path, root = top ++ sub)
                     (walk top t).
Proof.
  revert t. fix IH 1. intros [fs dirs] top. cbn [walk]. constructor.
  - exists []. rewrite app_nil_r. reflexivity.
  - induction dirs as [|[d t'] dirs IHdirs]; [constructor|].
    apply Forall_app. split; [|exact IHdirs].
    eapply Forall_impl; [apply (IH t' (top ++ [d]))|].
    intros [[root ds] fs'] [sub ->]. exists ([d] ++ sub).
    rewrite app_assoc. reflexivity.
Qed.

(** Every way the world outside can answer. *)
Ltac outcomes E :=
  repeat match goal with
         | |- context [print_ok E ?d] => destruct (print_ok E d) eqn:?
         | |- context [decode E ?p] => destruct (decode E p) eqn:?
         | |- context [write_ok E ?p] => destruct (write_ok E p) eqn:?
         | |- context [torn E ?p] => destruct (torn E p) eqn:?
         end.

Section PerFile.
Variable P : platform.
Variable E : env.
Variable self : converter.

Lemma supported_suffix (dirs : path) (name : pystr) :
  supported P (dirs ++ [name]) = true ->
  lower P (suffix name) ∈ SUPPORTED_FORMATS /\ suffix name <> [].
Proof.
  unfold supported. rewrite last_snoc. cbn [from_option id].
  intros H. apply bool_decide_eq_true in H. split; [exact H|].
  intros Hs. rewrite Hs in H. exact (not_supported_empty H).
Qed.

Lemma relative_below (dirs : path) (name : pystr) :
  relative self (source_dir self ++ dirs ++ [name]) = dirs ++ [name].
Proof. unfold relative. apply drop_app_length. Qed.

Lemma mirrored_path_below (dirs : path) (name : pystr) :
  mirrored_path self (source_dir self ++ dirs ++ [name])
  = output_dir self ++ dirs ++ [stem name ++ str ".h"].
Proof.
  unfold mirrored_path. cbv zeta. rewrite relative_below, last_snoc, removelast_last.
  reflexivity.
Qed.

(** What one conversion returns and does, case by case: every [print] can
    be the statement that raises, and the handler of lines 137-139 prints
    again. *)
Lemma attempt_cases (dirs : path) (name : pystr) :
  let file_path := source_dir self ++ dirs ++ [name] in
  let output_file := mirrored_path self file_path in
  let handler := fun d : world =>
    if print_ok E (ErrorConverting file_path)
    then (Ok false, World (stdout d ++ [ErrorConverting file_path]) (files d))
    else (Raise OtherException, d) in
  supported P file_path = true ->
  attempt P E self file_path
  = if print_ok E (Converting (dirs ++ [name]))
    then
      match decode E file_path with
      | None =>
          if print_ok E (ErrorProcessing file_path)
          then (Ok false,
                World [Converting (dirs ++ [name]); ErrorProcessing file_path] ∅)
          else handler (World [Converting (dirs ++ [name])] ∅)
      | Some img =>
          let text :=
            join newline (c_content P name (conversion_identifier P (stem name)) img) in
          if write_ok E output_file
          then
            if print_ok E (Generated output_file)
            then (Ok true,
                  World [Converting (dirs ++ [name]); Generated output_file]
                        {[ output_file := text ]})
            else handler (World [Converting (dirs ++ [name])] {[ output_file := text ]})
          else
            handler (World [Converting (dirs ++ [name])]
                           match torn E output_file with
                           | Some k => {[ output_file := take k text ]}
                           | None => ∅
                           end)
      end
    else handler empty_world.
Proof.
  intros file_path output_file handler Hsup.
  subst file_path output_file handler. unfold attempt.
  assert (Hlast : last (source_dir self ++ dirs ++ [name]) = Some name)
    by (rewrite !app_assoc; apply last_snoc).
  assert (Hstem : stem name <> []).
  { apply suffix_stem_nonempty.
    rewrite app_assoc in Hsup. apply supported_suffix in Hsup. tauto. }
  rewrite relative_below, mirrored_path_below.
  unfold convert_image_file, image_to_c_array.
  rewrite Hlast. cbn [from_option id].
  rewrite (var_name_identifier P _ Hstem), with_suffix_snoc.
  unfold try_except, bind, print, ret, raise, write_file, empty_world.
  outcomes E; cbn; rewrite ?insert_empty; reflexivity.
Qed.

#[local] Abbreviation eligible := (fun file_path =>
  below_source self file_path /\ supported P file_path = true).

(** For a file of the walk, [image_to_c_array] fails only on decoding. *)
Lemma image_to_c_array_below (dirs : path) (name : pystr) (w : world) :
  let file_path := source_dir self ++ dirs ++ [name] in
  supported P file_path = true ->
  image_to_c_array P E file_path w
  = match decode E file_path with
    | None => (print E (ErrorProcessing file_path) ;;; ret None) w
    | Some img =>
        (Ok (Some (join newline
                     (c_content P name (conversion_identifier P (stem name)) img))),
         w)
    end.
Proof.
  intros file_path Hsup. subst file_path. unfold image_to_c_array.
  assert (Hstem : stem name <> []).
  { apply suffix_stem_nonempty.
    rewrite app_assoc in Hsup. apply supported_suffix in Hsup. tauto. }
  rewrite !app_assoc, last_snoc. cbn [from_option id].
  rewrite (var_name_identifier P _ Hstem).
  destruct (decode E _); reflexivity.
Qed.

(** A conversion that raises raises what [print] raised. *)
Lemma attempt_raises (file_path : path) (x : exn) :
  eligible file_path ->
  fst (attempt P E self file_path) = Raise x -> x = OtherException.
Proof.
  intros [(dirs & name & ->) Hsup]. rewrite (attempt_cases dirs name Hsup).
  cbv zeta. outcomes E; cbn [fst]; congruence.
Qed.

(** A conversion touches no path but the mirrored one. *)
Lemma attempt_lookup (file_path p : path) :
  eligible file_path ->
  p <> mirrored_path self file_path ->
  files (snd (attempt P E self file_path)) !! p = None.
Proof.
  intros [(dirs & name & ->) Hsup] Hp. rewrite (attempt_cases dirs name Hsup).
  cbv zeta. outcomes E; cbn [snd files empty_world];
    solve [apply lookup_empty | apply lookup_singleton_ne; congruence].
Qed.

(** The line that names the relative path is the first one printed. *)
Lemma attempt_log (file_path : path) :
  eligible file_path ->
  attempted (stdout (snd (attempt P E self file_path)))
  = if print_ok E (Converting (relative self file_path))
    then [relative self file_path] else [].
Proof.
  intros [(dirs & name & ->) Hsup].
  rewrite (attempt_cases dirs name Hsup), relative_below.
  cbv zeta. outcomes E; reflexivity.
Qed.

(** A conversion that returns [True] decoded the file, wrote the whole
    text and printed both its lines. *)
Lemma attempt_converted (file_path : path) :
  eligible file_path ->
  converted P E self file_path = true ->
  exists c_content,
    fst (image_to_c_array P E file_path empty_world) = Ok (Some c_content)
    /\ write_ok E (mirrored_path self file_path) = true
    /\ snd (attempt P E self file_path)
       = World [Converting (relative self file_path);
                Generated (mirrored_path self file_path)]
               {[ mirrored_path self file_path := c_content ]}.
Proof.
  intros [(dirs & name & ->) Hsup]. unfold converted.
  rewrite (image_to_c_array_below dirs name _ Hsup).
  rewrite (attempt_cases dirs name Hsup), relative_below.
  cbv zeta. outcomes E; cbn [fst snd]; try discriminate.
  all: intros _; eexists; repeat split; assumption.
Qed.


(** A failed file that is counted is counted as an error. *)
Lemma attempt_printable (file_path : path) :
  printable E -> eligible file_path ->
  returns P E self file_path = true
  /\ converted P E self file_path = negb (failed E self file_path).
Proof.
  intros Hprint [(dirs & name & ->) Hsup].
  unfold returns, converted, failed, decode_fails, write_fails.
  rewrite (attempt_cases dirs name Hsup). cbv zeta. rewrite !Hprint.
  outcomes E; cbn [fst negb orb]; split; reflexivity.
Qed.

End PerFile.

(** ** The two loops of [scan_and_convert] *)

Lemma for_each_app {A S} (l1 l2 : list A) (body : A -> S -> M S) (s : S) (w : world) :
  for_each (l1 ++ l2) body s w
  = (s' <- for_each l1 body s ;; for_each l2 body s') w.
Proof.
  revert s w. induction l1 as [|x l1 IH]; intros s w; cbn [app for_each].
  - reflexivity.
  - unfold bind in *. destruct (body x s w) as [[s'|e] w']; [|reflexivity].
    apply IH.
Qed.

Section Loops.
Variable P : platform.
Variable E : env.
Variable self : converter.

#[local] Abbreviation conv := (converted P E self).
#[local] Abbreviation errs := (fun file_path => negb (converted P E self file_path)).
#[local] Abbreviation eligible := (fun file_path =>
  below_source self file_path /\ supported P file_path = true).

(** The inner loop skips what is not supported and counts the rest. *)
Lemma files_loop (sub : path) (fs : list pystr) (counts : nat * nat) (w : world) :
  for_each fs (visit_file P E self (source_dir self ++ sub)) counts w
  = for_each (List.filter (supported P)
                (map (fun file => (source_dir self ++ sub) ++ [file]) fs))
             (tally_file P E self) counts w.
Proof.
  revert counts w. induction fs as [|file fs IH]; intros [c e] w; [reflexivity|].
  cbn [for_each map List.filter]. unfold bind at 1. unfold visit_file.
  destruct (supported P _) eqn:Hsup.
  - cbn [for_each]. unfold bind at 3. unfold tally_file.
    rewrite <- app_assoc, relative_to_app, relative_below.
    unfold bind at 1 3. cbn [fst snd].
    destruct (convert_image_file P E self _ _ w) as [[[|]|x] w']; try reflexivity;
      unfold ret; apply IH.
  - unfold ret. apply IH.
Qed.

(** The two loops are one loop over the eligible files. *)
Lemma walk_loop (entries : list (path * list pystr * list pystr))
  (counts : nat * nat) (w : world) :
  Forall (fun '(root, _, _) => exists sub : path, root = source_dir self ++ sub)
         entries ->
  for_each entries
    (fun '(root, _, fs) counts => for_each fs (visit_file P E self root) counts)
    counts w
  = for_each (List.filter (supported P)
                (flat_map (fun '(root, _, fs) => map (fun file => root ++ [file]) fs)
                          entries))
             (tally_file P E self) counts w.
Proof.
  intros Hroots. revert counts w.
  induction Hroots as [|[[root ds] fs] entries [sub ->] _ IH]; intros counts w;
    [reflexivity|].
  cbn [for_each flat_map]. rewrite List.filter_app, for_each_app.
  unfold bind. rewrite files_loop.
  destruct (for_each _ _ counts w) as [[counts'|x] w']; [apply IH|reflexivity].
Qed.

Lemma all_files_below :
  Forall (below_source self) (all_files E self).
Proof.
  unfold all_files, os_walk.
  destruct (source E (source_dir self)) as [t|]; [|constructor].
  pose proof (walk_roots t (source_dir self)) as Hroots.
  induction Hroots as [|[[root ds] fs] entries [sub ->] _ IH]; [constructor|].
  cbn [flat_map]. apply Forall_app. split; [|exact IH].
  apply Forall_forall. intros fp Hfp.
  apply list_elem_of_In, in_map_iff in Hfp. destruct Hfp as (file & <- & _).
  exists sub, file. rewrite app_assoc. reflexivity.
Qed.

Lemma eligible_files_spec :
  Forall eligible (eligible_files P E self).
Proof.
  apply Forall_forall. intros fp Hfp.
  apply list_elem_of_In, filter_In in Hfp. destruct Hfp as [Hin Hsup].
  split; [|exact Hsup].
  pose proof all_files_below as Hall. rewrite Forall_forall in Hall.
  apply Hall, list_elem_of_In, Hin.
Qed.

(** The loop over a list of eligible files: it counts until a conversion
    raises, and does what the conversions it got to do. *)
Lemma sweep (l : list path) (c e : nat) (w : world) :
  Forall eligible l ->
  for_each l (tally_file P E self) (c, e) w
  = (if forallb (returns P E self) l
     then Ok (c + length (List.filter conv l), e + length (List.filter errs l))%nat
     else Raise OtherException,
     followed_by w (effects P E self (reached P E self l))).
Proof.
  intros Hl. revert c e w. induction Hl as [|fp l Hfp _ IH]; intros c e w.
  - cbn. rewrite !Nat.add_0_r, followed_by_empty_r. reflexivity.
  - cbn [for_each forallb reached List.filter effects foldr].
    fold (effects P E self (if returns P E self fp then reached P E self l else [])).
    unfold bind at 1. unfold tally_file at 1. unfold bind at 1.
    rewrite (oblivious_convert_image_file P E self _ _ w).
    fold (attempt P E self fp).
    pose proof (attempt_raises P E self fp) as Hraise.
    assert (Hr : returns P E self fp
                 = match fst (attempt P E self fp) with
                   | Ok _ => true
                   | Raise _ => false
                   end) by reflexivity.
    assert (Hc : converted P E self fp
                 = match fst (attempt P E self fp) with
                   | Ok true => true
                   | _ => false
                   end) by reflexivity.
    destruct (fst (attempt P E self fp)) as [[|]|x]; rewrite Hr, ?Hc;
      cbn [fst snd andb negb length].
    + unfold ret. rewrite IH, followed_by_assoc.
      apply (f_equal2 pair); [|reflexivity].
      destruct (forallb _ l); [do 2 f_equal; lia|reflexivity].
    + unfold ret. rewrite IH, followed_by_assoc.
      apply (f_equal2 pair); [|reflexivity].
      destruct (forallb _ l); [do 2 f_equal; lia|reflexivity].
    + rewrite (Hraise x Hfp eq_refl). cbn [effects foldr].
      rewrite followed_by_empty_r. reflexivity.
Qed.

Lemma reached_all (l : list path) :
  forallb (returns P E self) l = true -> reached P E self l = l.
Proof.
  induction l as [|fp l IH]; [reflexivity|]. cbn [forallb reached].
  intros [-> Hl]%andb_prop. rewrite (IH Hl). reflexivity.
Qed.

Lemma printable_returns (l : list path) :
  printable E -> Forall eligible l -> forallb (returns P E self) l = true.
Proof.
  intros Hprint Hl. apply forallb_forall. intros fp Hin.
  rewrite Forall_forall in Hl.
  apply (attempt_printable P E self fp Hprint), Hl, list_elem_of_In, Hin.
Qed.

End Loops.

(** ** What a run leaves behind *)

Lemma attempted_app (l1 l2 : list diag) :
  attempted (l1 ++ l2) = attempted l1 ++ attempted l2.
Proof. unfold attempted. apply omap_app. Qed.

Lemma filter_complement {A} (p : A -> bool) (l : list A) :
  (length (List.filter p l) + length (List.filter (fun x => negb (p x)) l)
   = length l)%nat.
Proof.
  induction l as [|x l IH]; [reflexivity|]. cbn [List.filter].
  destruct (p x); cbn [negb length]; lia.
Qed.

Lemma bind_ext {A B} (m : M A) (k1 k2 : A -> M B) (w : world) :
  (forall a w', k1 a w' = k2 a w') -> bind m k1 w = bind m k2 w.
Proof. intros Hk. unfold bind. destruct (m w) as [[a|x] w']; [apply Hk|reflexivity]. Qed.

Lemma bind_ext_l {A B} (m1 m2 : M A) (k : A -> M B) (w : world) :
  m1 w = m2 w -> bind m1 k w = bind m2 k w.
Proof. intros Hm. unfold bind. rewrite Hm. reflexivity. Qed.


Section Effects.
Variable P : platform.
Variable E : env.
Variable self : converter.

#[local] Abbreviation conv := (converted P E self).
#[local] Abbreviation errs := (fun file_path => negb (converted P E self file_path)).
#[local] Abbreviation eligible := (fun file_path =>
  below_source self file_path /\ supported P file_path = true).

Lemma reached_incl (l : list path) (file_path : path) :
  In file_path (reached P E self l) -> In file_path l.
Proof.
  induction l as [|fp l IH]; [intros []|]. cbn [reached].
  intros [->|Hin]; [left; reflexivity|right].
  destruct (returns P E self fp); [exact (IH Hin)|destruct Hin].
Qed.

Lemma reached_eligible (l : list path) :
  Forall eligible l -> Forall eligible (reached P E self l).
Proof.
  rewrite !Forall_forall. intros Hl fp Hin.
  apply Hl, list_elem_of_In, reached_incl, list_elem_of_In, Hin.
Qed.

(** Conversions touch no path but the mirrored paths of their files. *)
Lemma effects_lookup_none (l : list path) (p : path) :
  Forall eligible l ->
  p ∉ map (mirrored_path self) l ->
  files (effects P E self l) !! p = None.
Proof.
  induction 1 as [|fp l Hfp _ IH]; intros Hp; [apply lookup_empty|].
  cbn [effects foldr]. fold (effects P E self l). unfold followed_by. cbn [files].
  cbn [map] in Hp. apply not_elem_of_cons in Hp. destruct Hp as [Hne Hp].
  apply lookup_union_None. split; [exact (IH Hp)|].
  apply attempt_lookup; assumption.
Qed.

Lemma reached_lookup_none (l : list path) (p : path) :
  Forall eligible l ->
  p ∉ map (mirrored_path self) l ->
  files (effects P E self (reached P E self l)) !! p = None.
Proof.
  intros Hl Hp. apply effects_lookup_none; [apply reached_eligible, Hl|].
  intros Hin. apply Hp. apply list_elem_of_In, in_map_iff in Hin.
  destruct Hin as (fp & <- & Hin). apply list_elem_of_In, in_map, reached_incl, Hin.
Qed.



Lemma effects_attempted (l : list path) :
  printable E -> Forall eligible l ->
  attempted (stdout (effects P E self l)) = map (relative self) l.
Proof.
  intros Hprint. induction 1 as [|fp l Hfp _ IH]; [reflexivity|].
  cbn [effects foldr map]. fold (effects P E self l).
  unfold followed_by. cbn [stdout].
  rewrite attempted_app, attempt_log, IH, Hprint by exact Hfp. reflexivity.
Qed.

(** The header of a converted file holds its text, unless a later file of
    the walk has the same mirrored path. *)
Lemma effects_lookup (l : list path) (file_path : path) :
  Forall eligible l ->
  NoDup (map (mirrored_path self) l) ->
  In file_path l ->
  files (effects P E self l) !! mirrored_path self file_path
  = files (snd (attempt P E self file_path)) !! mirrored_path self file_path.
Proof.
  intros Hel. revert file_path.
  induction Hel as [|fp l Hfp Hl IH]; intros file_path Hnodup Hin; [destruct Hin|].
  cbn [effects foldr]. fold (effects P E self l). unfold followed_by. cbn [files].
  cbn [map] in Hnodup. apply NoDup_cons in Hnodup. destruct Hnodup as [Hnot Hnodup].
  destruct Hin as [->|Hin].
  - rewrite lookup_union_r; [reflexivity|].
    apply effects_lookup_none; assumption.
  - assert (Hne : mirrored_path self file_path <> mirrored_path self fp).
    { intros Heq. apply Hnot. rewrite <- Heq. apply list_elem_of_In, in_map, Hin. }
    rewrite lookup_union_l by (apply attempt_lookup; assumption).
    rewrite (IH file_path Hnodup Hin). reflexivity.
Qed.

(** On the files of the walk, when every line can be printed, converting
    and failing are complementary. *)
Lemma filter_converted_eligible :
  printable E ->
  List.filter (converted P E self) (eligible_files P E self)
  = List.filter (fun fp => negb (failed E self fp)) (eligible_files P E self)
  /\ List.filter (fun fp => negb (converted P E self fp)) (eligible_files P E self)
     = List.filter (failed E self) (eligible_files P E self).
Proof.
  intros Hprint.
  pose proof (eligible_files_spec P E self) as Hel. rewrite Forall_forall in Hel.
  split; apply filter_ext_in; intros fp Hfp;
    apply list_elem_of_In, Hel in Hfp;
    destruct (attempt_printable P E self fp Hprint Hfp) as [_ ->];
    [reflexivity|apply negb_involutive].
Qed.

(** [scan_and_convert] is the loop over the eligible files between three
    lines and four. *)
Lemma scan_and_convert_loop (w : world) :
  scan_and_convert P E self w
  = (print E (ScanningSource (source_dir self)) ;;;
     print E (OutputDirectory (output_dir self)) ;;;
     print E Blank ;;;
     counts <- for_each (eligible_files P E self) (tally_file P E self) (O, O) ;;
     print E Blank ;;;
     print E ConversionComplete ;;;
     print E (ImagesConverted (fst counts)) ;;;
     print E (Errors (snd counts)) ;;;
     ret counts) w.
Proof.
  unfold scan_and_convert.
  do 3 (apply bind_ext; intros _ ?).
  apply bind_ext_l, walk_loop.
  unfold os_walk. destruct (source E (source_dir self)); [apply walk_roots|constructor].
Qed.

(** What a traversal returns and does, whichever statement raises. *)
Lemma scan_and_convert_cases (w : world) :
  let l := eligible_files P E self in
  exists (l' : list path) (log : list diag) (r : result (nat * nat)),
    scan_and_convert P E self w
    = (r, followed_by w (World log (files (effects P E self l'))))
    /\ (l' = [] \/ l' = reached P E self l)
    /\ attempted log = attempted (stdout (effects P E self l'))
    /\ match r with
       | Ok (c, e) =>
           forallb (returns P E self) l = true
           /\ l' = l
           /\ c = length (List.filter conv l)
           /\ e = length (List.filter errs l)
           /\ log = [ScanningSource (source_dir self);
                     OutputDirectory (output_dir self); Blank]
                    ++ stdout (effects P E self l)
                    ++ [Blank; ConversionComplete; ImagesConverted c; Errors e]
       | Raise x => x = OtherException
       end.
Proof.
  cbv zeta. rewrite scan_and_convert_loop.
  unfold bind at 1. unfold print at 1.
  destruct (print_ok E (ScanningSource _)).
  2:{ exists [], [], (Raise OtherException). cbn. rewrite followed_by_empty_r. auto. }
  unfold bind at 1. unfold print at 1.
  destruct (print_ok E (OutputDirectory _)).
  2:{ exists [], [ScanningSource (source_dir self)], (Raise OtherException).
      unfold followed_by. cbn.
      rewrite (left_id_L ∅ (∪)). auto. }
  unfold bind at 1. unfold print at 1.
  destruct (print_ok E Blank) eqn:Hblank.
  2:{ exists [], [ScanningSource (source_dir self); OutputDirectory (output_dir self)],
        (Raise OtherException).
      unfold followed_by. cbn. rewrite (left_id_L ∅ (∪)), <- app_assoc. auto. }
  unfold bind at 1. rewrite (sweep P E self _ _ _ _ (eligible_files_spec P E self)).
  cbn [Nat.add].
  set (l := eligible_files P E self).
  set (hdr := [ScanningSource (source_dir self); OutputDirectory (output_dir self);
               Blank]).
  assert (Hw : forall d,
            followed_by (World (((stdout w ++ [ScanningSource (source_dir self)])
                                 ++ [OutputDirectory (output_dir self)]) ++ [Blank])
                               (files w)) d
            = followed_by w (World (hdr ++ stdout d) (files d))).
  { intros d. unfold followed_by. cbn [stdout files]. subst hdr.
    rewrite <- !app_assoc. reflexivity. }
  cbn [stdout files]. rewrite Hw.
  destruct (forallb (returns P E self) l) eqn:Hret.
  2:{ exists (reached P E self l),
        (hdr ++ stdout (effects P E self (reached P E self l))), (Raise OtherException).
      repeat split; auto. }
  rewrite (reached_all P E self l Hret).
  unfold bind, print. cbn [stdout files followed_by fst snd]. rewrite Hblank.
  destruct (print_ok E ConversionComplete);
    [destruct (print_ok E (ImagesConverted _));
       [destruct (print_ok E (Errors _))|]|];
    cbn [fst snd stdout files]; exists l; eexists _, _;
    (split; [unfold followed_by; cbn [stdout files];
             rewrite <- ?app_assoc; reflexivity|]);
    (split; [right; reflexivity|]);
    (split; [rewrite !attempted_app; cbn; rewrite ?app_nil_r; reflexivity|]);
    auto.
Qed.

(** When every line can be printed the traversal returns. *)
Lemma scan_and_convert_printable (w : world) :
  printable E ->
  let l := eligible_files P E self in
  let c := length (List.filter conv l) in
  let e := length (List.filter errs l) in
  scan_and_convert P E self w
  = (Ok (c, e),
     followed_by w
       (World ([ScanningSource (source_dir self); OutputDirectory (output_dir self);
                Blank]
               ++ stdout (effects P E self l)
               ++ [Blank; ConversionComplete; ImagesConverted c; Errors e])
              (files (effects P E self l)))).
Proof.
  intros Hprint. cbv zeta. rewrite scan_and_convert_loop.
  unfold bind at 1 2 3 4. unfold print at 1 2 3. rewrite !Hprint.
  rewrite (sweep P E self _ _ _ _ (eligible_files_spec P E self)).
  rewrite (printable_returns P E self _ Hprint (eligible_files_spec P E self)).
  rewrite reached_all
    by exact (printable_returns P E self _ Hprint (eligible_files_spec P E self)).
  unfold bind, print, ret, followed_by. rewrite !Hprint.
  cbn [fst snd stdout files Nat.add].
  repeat rewrite <- app_assoc. cbn [app]. reflexivity.
Qed.

(** A traversal touches no path but the mirrored paths of eligible files. *)
Lemma scan_and_convert_lookup (w : world) (p : path) :
  p ∉ map (mirrored_path self) (eligible_files P E self) ->
  files (snd (scan_and_convert P E self w)) !! p = files w !! p.
Proof.
  intros Hp.
  destruct (scan_and_convert_cases w) as (l' & log & r & -> & Hl' & _).
  unfold followed_by. cbn [snd files]. apply lookup_union_r.
  destruct Hl' as [->| ->]; [apply lookup_empty|].
  apply reached_lookup_none; [apply eligible_files_spec|exact Hp].
Qed.

Lemma scan_and_convert_dom (w : world) :
  dom (files (snd (scan_and_convert P E self w)))
    ⊆@{gset (list (list N))}
      dom (files w)
      ∪ list_to_set (map (mirrored_path self) (eligible_files P E self)).
Proof.
  intros p Hp. apply elem_of_union.
  destruct (decide (p ∈ map (mirrored_path self) (eligible_files P E self)))
    as [Hin|Hnot]; [right; apply elem_of_list_to_set, Hin|left].
  apply elem_of_dom. rewrite <- (scan_and_convert_lookup w p Hnot).
  apply elem_of_dom, Hp.
Qed.

(** A converted file the loop got to has a header. *)
Lemma effects_converted (l : list path) (file_path : path) :
  Forall eligible l ->
  In file_path l ->
  converted P E self file_path = true ->
  is_Some (files (effects P E self l) !! mirrored_path self file_path).
Proof.
  induction 1 as [|fp l Hfp _ IH]; intros Hin Hconv; [destruct Hin|].
  cbn [effects foldr]. fold (effects P E self l). unfold followed_by. cbn [files].
  apply lookup_union_is_Some. destruct Hin as [->|Hin]; [right|left; auto].
  destruct (attempt_converted P E self file_path Hfp Hconv) as (text & _ & _ & ->).
  cbn [files]. rewrite lookup_singleton_eq. eexists. reflexivity.
Qed.

End Effects.

(** * The claims *)

(** C1.  On Python ints [rgb888_to_rgb565] maps (255, 0, 0) to 0xF800, but
    the call site passes the [uint8] scalars of the decoded array: under the
    promotion rules of NumPy 2 every intermediate value stays a [uint8], the
    result never has more than eight bits, the red channel is shifted out,
    and the literal written for a red pixel is 0x0000. *)
Theorem rgb888_to_rgb565_uint8_call_site :
  rgb888_to_rgb565 255 0 0 = 0xF800
  /\ value (rgb888_to_rgb565 (num := npnumber NEP50)
              (u8 Byte.xff) (u8 Byte.x00) (u8 Byte.x00)) = 0
  /\ (forall r g b : Byte.byte,
        0 <= value (rgb888_to_rgb565 (num := npnumber NEP50) (u8 r) (u8 g) (u8 b))
          < 2 ^ 8)
  /\ row_pixels numpy2 red_dot 0 = [str "0x0000"]
  /\ row_pixels numpy1 red_dot 0 = [str "0xF800"].
Proof.
  split; [reflexivity|]. split; [reflexivity|]. split.
  - intros r g b. apply rgb888_to_rgb565_nep50_uint8.
  - split; reflexivity.
Qed.

Lemma call_site_value_legacy (P : platform) (px : Byte.byte * Byte.byte * Byte.byte) :
  numpy P = Legacy -> call_site_value P px = packed_pixel px.
Proof.
  intros Hlegacy. destruct px as [[r g] b]. unfold call_site_value, packed_pixel.
  rewrite Hlegacy, rgb888_to_rgb565_legacy. reflexivity.
Qed.

(** C2.  For a decodable image file with a non-empty name, the text
    [image_to_c_array] returns has the layout of the specification: the
    provenance comment, the inclusion guard, the two dimension constants,
    the array of [width * height] four-digit upper-case literals, one row a
    line and a comma after every row but the last, the aggregate type and
    its instance.  The values listed are those the call site computes; they
    are the packed pixel values under the promotion rules of NumPy before
    2.0, and they are not under those of NumPy 2: for the red pixel of
    [dot.png] the array lists 0x0000 where the packed value is 0xF800. *)
Theorem image_to_c_array_artifact :
  (forall (P : platform) (E : env) (image_path : path) (img : image) (name : pystr)
          (w : world),
     decode E image_path = Some img ->
     last image_path = Some name ->
     name <> [] ->
     let ident := conversion_identifier P (stem name) in
     let listed := call_site_buffer P img in
     image_to_c_array P E image_path w
     = (Ok (Some (artifact P name ident (width img) (height img) listed)), w)
     /\ var_name P (stem name) = Some ident
     /\ length listed = (width img * height img)%nat
     /\ Forall (fun v => 0 <= v < 2 ^ 16 /\ literal_value (hex4_literal v) = Some v)
               listed
     /\ (numpy P = Legacy -> listed = packed_buffer img))
  /\ packed_buffer red_dot = [0xF800]
  /\ call_site_buffer numpy2 red_dot = [0]
  /\ image_to_c_array numpy2 dot [str "src"; str "dot.png"] empty_world
     = (Ok (Some (artifact numpy2 (str "dot.png") (str "dot") 1 1 [0])), empty_world)
  /\ pixel_array (str "dot") 1 1 (call_site_buffer numpy2 red_dot)
     = [str "const uint16_t dot_data[1] = {"; str "    0x0000"; str "};"]
  /\ pixel_array (str "dot") 1 1 (packed_buffer red_dot)
     = [str "const uint16_t dot_data[1] = {"; str "    0xF800"; str "};"].
Proof.
  assert (Hlayout : forall (P : platform) (E : env) (image_path : path) (img : image)
                           (name : pystr) (w : world),
            decode E image_path = Some img ->
            last image_path = Some name ->
            name <> [] ->
            image_to_c_array P E image_path w
            = (Ok (Some (artifact P name (conversion_identifier P (stem name))
                                  (width img) (height img) (call_site_buffer P img))),
               w)).
  { intros P E image_path img name w Hdec Hlast Hname.
    unfold image_to_c_array. rewrite Hdec, Hlast. cbn [from_option id].
    rewrite (var_name_identifier P _ (stem_nonempty _ Hname)).
    unfold ret. do 3 f_equal.
    unfold c_content, artifact, pixel_array. rewrite pixels_rows.
    cbn [app provenance_comment blank_line inclusion_guard dimension_constants].
    rewrite <- !app_assoc. reflexivity. }
  split; [|split; [reflexivity|split; [reflexivity|split; [|split; reflexivity]]]].
  - intros P E image_path img name w Hdec Hlast Hname ident listed.
    split; [exact (Hlayout P E image_path img name w Hdec Hlast Hname)|].
    split; [apply var_name_identifier, stem_nonempty, Hname|].
    split; [apply length_call_site_buffer|]. split.
    + eapply Forall_impl; [apply call_site_buffer_range|].
      intros v Hv. split; [exact Hv|]. apply literal_value_hex4, Hv.
    + intros Hlegacy. subst listed. unfold call_site_buffer, packed_buffer.
      apply flat_map_ext. intros y. apply map_ext. intros x.
      apply call_site_value_legacy, Hlegacy.
  - apply (Hlayout numpy2 dot [str "src"; str "dot.png"] red_dot (str "dot.png")
             empty_world); [reflexivity|reflexivity|].
    vm_compute. discriminate.
Qed.

(** C3.  Deriving the identifier of a non-empty stem returns (it is total
    on file name stems), the result is the stem with every hyphen and space
    replaced by an underscore and every other character kept, prefixed with
    the marker when its first character is neither a letter nor an
    underscore; the result starts with a letter or an underscore, and
    deriving again returns it unchanged. *)
Theorem var_name_total_idempotent (P : platform) (s : pystr) :
  s <> [] ->
  exists ident c rest,
    var_name P s = Some ident
    /\ ident = conversion_identifier P s
    /\ ident = c :: rest /\ valid_leading P c = true
    /\ var_name P ident = Some ident.
Proof.
  intros Hs.
  pose proof (conversion_identifier_nonempty P s Hs) as Hne.
  destruct (conversion_identifier P s) as [|c rest] eqn:Hid; [congruence|].
  exists (c :: rest), c, rest.
  split; [rewrite <- Hid; apply var_name_identifier, Hs|].
  split; [reflexivity|]. split; [reflexivity|].
  split; [apply (conversion_identifier_valid P s c rest Hid)|].
  rewrite var_name_identifier by discriminate.
  rewrite <- Hid, conversion_identifier_idem. reflexivity.
Qed.

(** The stem [my-icon]. *)
Lemma var_name_total_idempotent_witness :
  exists ident c rest,
    var_name numpy2 (str "my-icon") = Some ident
    /\ ident = conversion_identifier numpy2 (str "my-icon")
    /\ ident = c :: rest /\ valid_leading numpy2 c = true
    /\ var_name numpy2 ident = Some ident.
Proof.
  apply (var_name_total_idempotent numpy2 (str "my-icon")).
  vm_compute. discriminate.
Defined.

Example var_name_examples (P : platform) :
  var_name P (str "my-icon") = Some (str "my_icon")
  /\ var_name P (str "1icon") = Some (str "img_1icon")
  /\ var_name P (str "icon") = Some (str "icon")
  /\ var_name P (str "") = None.
Proof. repeat split. Qed.

(** C10.  The marker prefix is the literal [img_]: when the first character
    of the replaced stem is neither a letter nor an underscore, the
    identifier is [img_] followed by the replaced stem, and its upper-case
    form, used for the dimension constants, starts with [IMG_]. *)
Theorem var_name_marker_prefix (P : platform) (s : pystr) (c : char) (rest : pystr) :
  map sanitize_char s = c :: rest ->
  isalpha P c = false ->
  c <> chr "_" ->
  var_name P s = Some (str "img_" ++ c :: rest)
  /\ upper P (str "img_" ++ c :: rest) = str "IMG_" ++ upper P (c :: rest).
Proof.
  intros Hs Halpha Hc. split.
  - unfold var_name. rewrite replace_twice, Hs, Halpha.
    apply N.eqb_neq in Hc. rewrite Hc. reflexivity.
  - apply upper_app.
Qed.

(** The stem [1icon]. *)
Lemma var_name_marker_prefix_witness :
  var_name numpy2 (str "1icon") = Some (str "img_1icon")
  /\ upper numpy2 (str "img_1icon") = str "IMG_1ICON".
Proof.
  refine (var_name_marker_prefix numpy2 (str "1icon") (chr "1") (str "icon") _ _ _).
  - reflexivity.
  - reflexivity.
  - vm_compute. discriminate.
Defined.


Example supported_examples (P : platform) :
  supported P [str "src"; str "photo.png"] = true
  /\ supported P [str "src"; str "PHOTO.JPeG"] = true
  /\ supported P [str "scan.TIFF"] = true
  /\ supported P [str "archive.tar.gif"] = true
  /\ supported P [str "scan.tif"] = false
  /\ supported P [str "notes.txt"] = false
  /\ supported P [str "README"] = false
  /\ supported P [str ".png"] = false
  /\ supported P [str "png"] = false.
Proof. repeat split. Qed.


(** C5.  A single bad file can abort the run.  With a standard output that
    encodes ASCII only, the corrupt file with an accent in its name is announced by a line
    that cannot be printed, the handler's line cannot be printed either,
    and the exception leaves [scan_and_convert]: no tally is returned,
    [logo.png] is never converted and [main] exits with 1 after its own
    report.  When every line can be printed the traversal does return:
    each eligible file that fails to decode or to write counts as one
    error, the others as converted, and the two counts add up to the
    number of eligible files. *)
Theorem scan_and_convert_tally :
  (let self := Converter [str "src"] [str "out"] in
   let bad := [str "src"; str "caf" ++ e_acute ++ str ".png"] in
   eligible_files numpy1 cafe self = [bad; [str "src"; str "logo.png"]]
   /\ failed cafe self bad = true
   /\ failed cafe self [str "src"; str "logo.png"] = false
   /\ scan_and_convert numpy1 cafe self empty_world
      = (Raise OtherException,
         World [ScanningSource [str "src"]; OutputDirectory [str "out"]; Blank] ∅)
   /\ main numpy1 cafe (Args [str "src"] [str "out"] false) empty_world
      = (1, World [ScanningSource [str "src"]; OutputDirectory [str "out"]; Blank;
                   UnexpectedError] ∅))
  /\ (forall (P : platform) (E : env) (self : converter) (w : world),
        printable E ->
        let eligible := eligible_files P E self in
        let failures := List.filter (failed E self) eligible in
        exists converted_count error_count w',
          scan_and_convert P E self w = (Ok (converted_count, error_count), w')
          /\ error_count = length failures
          /\ converted_count = (length eligible - length failures)%nat
          /\ (converted_count + error_count = length eligible)%nat
          /\ attempted (stdout w') = attempted (stdout w) ++ map (relative self) eligible).
Proof.
  split.
  - cbv zeta. repeat split; vm_compute; reflexivity.
  - intros P E self w Hprint. cbv zeta.
    destruct (filter_converted_eligible P E self Hprint) as [_ Herr].
    pose proof (filter_complement (converted P E self) (eligible_files P E self))
      as Hsum.
    rewrite Herr in Hsum.
    eexists _, _, _. split; [apply (scan_and_convert_printable P E self w Hprint)|].
    rewrite Herr. split; [reflexivity|]. split; [lia|]. split; [lia|].
    unfold followed_by. cbn [stdout].
    rewrite !attempted_app,
      (effects_attempted P E self _ Hprint (eligible_files_spec P E self)).
    cbn. rewrite app_nil_r. reflexivity.
Qed.

Example gallery_tally :
  fst (scan_and_convert numpy1 gallery (Converter [str "src"] [str "out"]) empty_world)
  = Ok (2%nat, 1%nat)
  /\ fst (main numpy1 gallery (Args [str "src"] [str "out"] false) empty_world) = 1
  /\ fst (scan_and_convert numpy1 twins (Converter [str "none"] [str "out"]) empty_world)
     = Ok (0%nat, 0%nat).
Proof. repeat split. Qed.

(** C4, as stated, fails.  [a.png] and [a.jpg] of one directory are two
    eligible files, both are converted, and both are written to [a.h]: the
    output directory holds one artifact for two source files. *)
Lemma twins_share_one_artifact :
  let self := Converter [str "src"] [str "out"] in
  let run := scan_and_convert numpy1 twins self empty_world in
  fst run = Ok (2%nat, 0%nat)
  /\ eligible_files numpy1 twins self
     = [[str "src"; str "a.png"]; [str "src"; str "a.jpg"]]
  /\ [str "src"; str "a.png"] <> [str "src"; str "a.jpg"]
  /\ mirrored_path self [str "src"; str "a.png"] = [str "out"; str "a.h"]
  /\ mirrored_path self [str "src"; str "a.jpg"] = [str "out"; str "a.h"]
  /\ dom (files (snd run)) =@{gset (list (list N))} {[ [str "out"; str "a.h"] ]}.
Proof.
  cbv zeta. split; [reflexivity|]. split; [reflexivity|].
  split; [vm_compute; discriminate|]. split; [reflexivity|]. split; [reflexivity|].
  vm_compute. reflexivity.
Qed.

(** C4, amended.  A traversal creates or changes no file but at the
    mirrored path of an eligible file and removes none; when it returns,
    there is a file at the mirrored path of every converted file; the
    mirrored path of an eligible file is the output directory, the
    directories of the file's path below the source directory, unchanged,
    and the file's name with its suffix replaced by [.h]; two files share a
    mirrored path only when they lie in the same directory and their names
    have the same stem. *)
Theorem artifacts_at_mirrored_paths (P : platform) (E : env) (self : converter)
  (w : world) :
  (exists r w',
     scan_and_convert P E self w = (r, w')
     /\ dom (files w')
        ⊆@{gset (list (list N))}
          dom (files w)
          ∪ list_to_set (map (mirrored_path self) (eligible_files P E self))
     /\ dom (files w) ⊆@{gset (list (list N))} dom (files w')
     /\ (forall p, p ∉ map (mirrored_path self) (eligible_files P E self) ->
                   files w' !! p = files w !! p)
     /\ (forall converted_count error_count,
           r = Ok (converted_count, error_count) ->
           Forall (fun file_path =>
                     converted P E self file_path = true ->
                     mirrored_path self file_path ∈ dom (files w'))
                  (eligible_files P E self)))
  /\ Forall (fun file_path =>
               exists dirs name,
                 file_path = source_dir self ++ dirs ++ [name]
                 /\ name = stem name ++ suffix name /\ suffix name <> []
                 /\ mirrored_path self file_path
                    = output_dir self ++ dirs ++ [stem name ++ str ".h"])
            (eligible_files P E self)
  /\ (forall dirs1 name1 dirs2 name2,
        mirrored_path self (source_dir self ++ dirs1 ++ [name1])
        = mirrored_path self (source_dir self ++ dirs2 ++ [name2])
        -> dirs1 = dirs2 /\ stem name1 = stem name2).
Proof.
  split; [|split].
  - pose proof (scan_and_convert_dom P E self w) as Hdom.
    pose proof (scan_and_convert_lookup P E self w) as Hlook.
    destruct (scan_and_convert_cases P E self w)
      as (l' & log & r & Hscan & Hl' & _ & Hr).
    rewrite Hscan in Hdom, Hlook. cbn [snd] in Hdom, Hlook.
    eexists _, _. split; [exact Hscan|]. split; [exact Hdom|].
    split; [|split; [exact Hlook|]].
    + unfold followed_by. cbn [files]. rewrite dom_union_L. apply union_subseteq_r.
    + intros c e ->. destruct Hr as (_ & Hl & _).
      subst l'. apply Forall_forall. intros fp Hin Hconv.
      unfold followed_by. cbn [files]. apply elem_of_dom, lookup_union_is_Some. left.
      apply (effects_converted P E self _ _ (eligible_files_spec P E self));
        [apply list_elem_of_In, Hin|exact Hconv].
  - eapply Forall_impl; [apply eligible_files_spec|].
    intros fp [(dirs & name & ->) Hsup]. exists dirs, name.
    split; [reflexivity|]. split; [symmetry; apply stem_suffix|].
    rewrite app_assoc in Hsup. apply supported_suffix in Hsup.
    split; [tauto|]. apply mirrored_path_below.
  - intros dirs1 name1 dirs2 name2. rewrite !mirrored_path_below.
    intros H. apply app_inv_head in H. apply app_inj_tail in H.
    destruct H as [Hd Hn]. split; [exact Hd|].
    apply app_inv_tail in Hn. exact Hn.
Qed.


(** What [main] returns and does, read off a run in the empty world. *)
Lemma main_followed_by (P : platform) (E : env) (a : args) (w : world) :
  main P E a w
  = (fst (main P E a empty_world), followed_by w (snd (main P E a empty_world))).
Proof.
  unfold main.
  rewrite (oblivious_try_main E _ (oblivious_main_body P E a) w).
  destruct (try_main E (main_body P E a) empty_world) as [r d]. reflexivity.
Qed.

(** C8.  The text generated for a file does not depend on what was printed
    or written before, nor does the tally of a traversal; running [main]
    again on the world the first run left, with the source tree and the
    outcomes of decoding and writing unchanged, exits with the same status
    and leaves every file of the output directory as the first run left
    it. *)
Theorem rerun_is_idempotent (P : platform) (E : env) (a : args) (w : world) :
  (forall image_path w1 w2,
     fst (image_to_c_array P E image_path w1)
     = fst (image_to_c_array P E image_path w2))
  /\ (forall self w1 w2,
        fst (scan_and_convert P E self w1) = fst (scan_and_convert P E self w2))
  /\ fst (main P E a (snd (main P E a w))) = fst (main P E a w)
  /\ files (snd (main P E a (snd (main P E a w)))) = files (snd (main P E a w)).
Proof.
  split; [|split; [|split]].
  - intros image_path w1 w2.
    rewrite (oblivious_result _ w1 (oblivious_image_to_c_array P E image_path)).
    rewrite (oblivious_result _ w2 (oblivious_image_to_c_array P E image_path)).
    reflexivity.
  - intros self w1 w2.
    rewrite (oblivious_result _ w1 (oblivious_scan_and_convert P E self)).
    rewrite (oblivious_result _ w2 (oblivious_scan_and_convert P E self)).
    reflexivity.
  - rewrite (main_followed_by P E a (snd _)), (main_followed_by P E a w). reflexivity.
  - rewrite (main_followed_by P E a (snd _)), (main_followed_by P E a w).
    cbn [snd]. apply followed_by_twice_files.
Qed.

(** C9.  The [verbose] flag is parsed and never read: a run with the flag
    and a run without it exit with the same status and leave the same
    world, the same files and, line for line, the same output. *)
Theorem verbose_flag_is_ignored (P : platform) (E : env)
  (source_dir output_dir : path) (w : world) :
  main P E (Args source_dir output_dir true) w
  = main P E (Args source_dir output_dir false) w.
Proof. reflexivity. Qed.

(** * Further properties of the code *)

(** ** The packer *)

(** X1.  On 8-bit Python ints the packer and the unpacking of
    [examples.py] form a lossy round trip: unpacking a packed triple gives
    back the top five, six and five bits of its components, and two triples
    pack to the same value exactly when they agree on those bits. *)
Theorem unpack_rgb565_packed (r g b r' g' b' : Z) :
  0 <= r < 256 -> 0 <= g < 256 -> 0 <= b < 256 ->
  0 <= r' < 256 -> 0 <= g' < 256 -> 0 <= b' < 256 ->
  unpack_rgb565 (rgb888_to_rgb565 r g b) = (Z.shiftr r 3, Z.shiftr g 2, Z.shiftr b 3)
  /\ (rgb888_to_rgb565 r g b = rgb888_to_rgb565 r' g' b'
      <-> Z.shiftr r 3 = Z.shiftr r' 3 /\ Z.shiftr g 2 = Z.shiftr g' 2
          /\ Z.shiftr b 3 = Z.shiftr b' 3).
Proof.
  intros Hr Hg Hb Hr' Hg' Hb'.
  assert (Hun : forall x y z, 0 <= x < 256 -> 0 <= y < 256 -> 0 <= z < 256 ->
            unpack_rgb565 (rgb888_to_rgb565 x y z)
            = (Z.shiftr x 3, Z.shiftr y 2, Z.shiftr z 3)).
  { intros x y z Hx Hy Hz.
    destruct (rgb888_to_rgb565_int x y z Hx Hy Hz) as (_ & Hv & H1 & H2 & H3).
    unfold unpack_rgb565. rewrite H2, H3. do 2 f_equal.
    rewrite H1. change 0x1F with (Z.ones 5). rewrite Z.land_ones by lia.
    rewrite Z.shiftr_div_pow2 by lia. apply Z.mod_small.
    change (2 ^ 3) with 8. change (2 ^ 5) with 32.
    split; [apply Z.div_pos; lia|apply Z.div_lt_upper_bound; lia]. }
  split; [apply Hun; assumption|]. split.
  - intros Heq. apply (f_equal unpack_rgb565) in Heq.
    rewrite !Hun in Heq by assumption. injection Heq as H1 H2 H3. auto.
  - intros (H1 & H2 & H3). rewrite !rgb888_to_rgb565_fields by assumption.
    rewrite !Z.shiftr_div_pow2 in H1, H2, H3 by lia.
    change (2 ^ 3) with 8 in H1, H3. change (2 ^ 2) with 4 in H2.
    rewrite H1, H2, H3. reflexivity.
Qed.

(** Orange and a slightly different orange. *)
Lemma unpack_rgb565_packed_witness :
  unpack_rgb565 (rgb888_to_rgb565 255 165 0) = (31, 41, 0)
  /\ (rgb888_to_rgb565 255 165 0 = rgb888_to_rgb565 250 167 7
      <-> 31 = 31 /\ 41 = 41 /\ 0 = 0).
Proof.
  apply (unpack_rgb565_packed 255 165 0 250 167 7); lia.
Defined.

(** X2.  Under the promotion rules of NumPy before 2.0 every literal of a
    row is the literal of the value the packer computes on the Python ints
    of the pixel. *)
Theorem row_pixels_legacy (P : platform) (img : image) (y : nat) :
  numpy P = Legacy ->
  row_pixels P img y
  = map (fun x => let '(r, g, b) := img_array img y x in
                  hex4_literal (rgb888_to_rgb565 (Z.of_N (Byte.to_N r))
                                                 (Z.of_N (Byte.to_N g))
                                                 (Z.of_N (Byte.to_N b))))
        (seq 0 (width img)).
Proof.
  intros Hlegacy. rewrite row_pixels_literals, map_map. apply map_ext.
  intros x. destruct (img_array img y x) as [[r g] b]. unfold call_site_value.
  rewrite Hlegacy, rgb888_to_rgb565_legacy. reflexivity.
Qed.

(** The first row of the primaries. *)
Lemma row_pixels_legacy_witness :
  row_pixels numpy1 primaries 0 = [str "0xF800"; str "0x07E0"].
Proof.
  refine (row_pixels_legacy numpy1 primaries 0 _). reflexivity.
Defined.

(** ** Identifiers and file names *)

Lemma var_name_none (P : platform) (s : pystr) : var_name P s = None <-> s = [].
Proof.
  split.
  - intros H. destruct s as [|c s]; [reflexivity|].
    rewrite var_name_identifier in H by discriminate. discriminate.
  - intros ->. reflexivity.
Qed.

Lemma sanitize_char_clean (c : char) :
  sanitize_char c <> chr "-" /\ sanitize_char c <> chr " ".
Proof.
  unfold sanitize_char.
  destruct (N.eqb_spec c (chr "-")) as [->|Hh]; [split; discriminate|].
  destruct (N.eqb_spec c (chr " ")) as [->|Hs]; [split; discriminate|].
  split; assumption.
Qed.

(** X3.  An identifier the code derives holds no hyphen and no space, is
    as long as the stem or four characters longer, and is the same for all
    stems that differ only in hyphens, spaces and underscores standing for
    one another. *)
Theorem var_name_sanitized (P : platform) (s ident : pystr) :
  var_name P s = Some ident ->
  Forall (fun c => c <> chr "-" /\ c <> chr " ") ident
  /\ (length ident = length s \/ length ident = (length s + 4)%nat)
  /\ var_name P (map sanitize_char s) = Some ident.
Proof.
  intros Hid.
  assert (Hs : s <> []) by (intros ->; discriminate).
  rewrite var_name_identifier in Hid by exact Hs. injection Hid as <-.
  assert (Hclean : Forall (fun c => c <> chr "-" /\ c <> chr " ")
                          (map sanitize_char s)).
  { apply Forall_forall. intros c Hc.
    apply list_elem_of_In, in_map_iff in Hc. destruct Hc as (c0 & <- & _).
    apply sanitize_char_clean. }
  split; [|split].
  - unfold conversion_identifier.
    destruct (map sanitize_char s) as [|c rest] eqn:Hmap; [exact Hclean|].
    destruct (valid_leading P c); [exact Hclean|].
    apply Forall_app. split; [|exact Hclean].
    repeat constructor; discriminate.
  - unfold conversion_identifier.
    destruct (map sanitize_char s) as [|c rest] eqn:Hmap.
    + left. rewrite <- Hmap. apply length_map.
    + destruct (valid_leading P c).
      * left. rewrite <- Hmap. apply length_map.
      * right. rewrite length_app, <- Hmap, length_map. cbn. lia.
  - rewrite var_name_identifier by (destruct s; [congruence|discriminate]).
    unfold conversion_identifier. rewrite sanitize_idem. reflexivity.
Qed.

(** The stem [2 my-icon]. *)
Lemma var_name_sanitized_witness :
  Forall (fun c => c <> chr "-" /\ c <> chr " ") (str "img_2_my_icon")
  /\ (length (str "img_2_my_icon") = length (str "2 my-icon")
      \/ length (str "img_2_my_icon") = (length (str "2 my-icon") + 4)%nat)
  /\ var_name numpy2 (map sanitize_char (str "2 my-icon")) = Some (str "img_2_my_icon").
Proof.
  refine (var_name_sanitized numpy2 (str "2 my-icon") (str "img_2_my_icon") _).
  reflexivity.
Defined.

Lemma rfind_dot_h (s : pystr) : rfind (chr ".") (s ++ str ".h") = Some (length s).
Proof.
  induction s as [|c s IH]; [reflexivity|].
  cbn [app rfind length]. rewrite IH. reflexivity.
Qed.

Lemma suffix_dot_h (s : pystr) :
  suffix (s ++ str ".h") = (if decide (s = []) then [] else str ".h")
  /\ stem (s ++ str ".h") = (if decide (s = []) then str ".h" else s).
Proof.
  unfold suffix, stem, split_at_suffix. rewrite rfind_dot_h, length_app.
  destruct s as [|c s].
  - split; reflexivity.
  - rewrite decide_False by discriminate.
    replace (0 <? length (c :: s))%nat with true
      by (symmetry; apply Nat.ltb_lt; cbn; lia).
    replace (length (c :: s) <? length (c :: s) + length (str ".h") - 1)%nat with true
      by (symmetry; apply Nat.ltb_lt; cbn; lia).
    cbn [andb]. split; [apply drop_app_length|apply take_app_length].
Qed.

(** X4.  The header written for a file is never itself a file the walk
    would convert: its suffix is [.h] (or it has none, for an empty stem),
    whatever the name it was derived from, and when the stem is not empty
    the header keeps it. *)
Theorem header_not_supported (P : platform) (self : converter)
  (dirs file_path : path) (name : pystr) :
  with_suffix (dirs ++ [name]) (str ".h") = Some (dirs ++ [stem name ++ str ".h"])
  /\ supported P (dirs ++ [stem name ++ str ".h"]) = false
  /\ supported P (mirrored_path self file_path) = false
  /\ (stem name = [] \/ (suffix (stem name ++ str ".h") = str ".h"
                         /\ stem (stem name ++ str ".h") = stem name)).
Proof.
  assert (Hno : forall (ds : path) (s : pystr),
             supported P (ds ++ [s ++ str ".h"]) = false).
  { intros ds s. unfold supported. rewrite last_snoc. cbn [from_option id].
    destruct (suffix_dot_h s) as [Hsuf _]. rewrite Hsuf.
    destruct (decide (s = [])); reflexivity. }
  split; [apply with_suffix_snoc|]. split; [apply Hno|]. split.
  - unfold mirrored_path. cbv zeta. rewrite app_assoc. apply Hno.
  - destruct (suffix_dot_h (stem name)) as [Hsuf Hstem].
    destruct (decide (stem name = [])) as [He|Hne]; [left; exact He|right].
    split; assumption.
Qed.

(** ** One file *)

(** X5.  [image_to_c_array] never touches a file.  It returns the text
    without printing when the image decodes and the file name is not
    empty; otherwise it prints one line naming the path it was given and
    returns [None], or, when that line cannot be printed, raises. *)
Theorem image_to_c_array_failure (P : platform) (E : env) (image_path : path)
  (w : world) :
  let unusable := decode E image_path = None \/ default [] (last image_path) = [] in
  let report := ErrorProcessing image_path in
  match image_to_c_array P E image_path w with
  | (Ok (Some _), w') => ~ unusable /\ w' = w
  | (Ok None, w') =>
      unusable /\ print_ok E report = true
      /\ w' = World (stdout w ++ [report]) (files w)
  | (Raise x, w') =>
      unusable /\ print_ok E report = false /\ x = OtherException /\ w' = w
  end.
Proof.
  cbv zeta. unfold image_to_c_array.
  assert (Hname : var_name P (stem (default [] (last image_path))) = None
                  -> default [] (last image_path) = []).
  { intros Hid. apply var_name_none in Hid.
    destruct (default [] (last image_path)) as [|c name] eqn:Hname; [reflexivity|].
    exfalso. apply (stem_nonempty (c :: name)); [discriminate|exact Hid]. }
  assert (Hfailed : forall unusable : Prop, unusable ->
            match (print E (ErrorProcessing image_path) ;;; ret (@None pystr)) w
                  return Prop with
            | (Ok (Some _), w') => ~ unusable /\ w' = w
            | (Ok None, w') =>
                unusable /\ print_ok E (ErrorProcessing image_path) = true
                /\ w' = World (stdout w ++ [ErrorProcessing image_path]) (files w)
            | (Raise x, w') =>
                unusable /\ print_ok E (ErrorProcessing image_path) = false
                /\ x = OtherException /\ w' = w
            end).
  { intros unusable Hun. unfold bind, print, ret.
    destruct (print_ok E (ErrorProcessing image_path)); repeat split; assumption. }
  destruct (decode E image_path) as [img|]; [|apply Hfailed; left; reflexivity].
  destruct (var_name P (stem (default [] (last image_path)))) as [ident|] eqn:Hid;
    [|apply Hfailed; right; apply Hname; reflexivity].
  unfold ret. split; [|reflexivity]. intros [H|H]; [discriminate|].
  rewrite H in Hid. discriminate.
Qed.

(** X6.  [convert_image_file] creates or changes no file but the one at
    the output directory joined with the relative path with its suffix
    replaced; that file is left as it was or holds the text
    [image_to_c_array] returns or a beginning of it.  When the method
    returns [True] the file holds the whole text and both lines were
    printed; the method raises only when the line of its handler cannot
    be printed. *)
Theorem convert_image_file_outcome (P : platform) (E : env) (self : converter)
  (image_path relative_path : path) (w : world) :
  let run := convert_image_file P E self image_path relative_path w in
  let output_file :=
    option_map (app (output_dir self)) (with_suffix relative_path (str ".h")) in
  (forall p, output_file <> Some p -> files (snd run) !! p = files w !! p)
  /\ (forall x, fst run = Raise x ->
                x = OtherException /\ print_ok E (ErrorConverting image_path) = false)
  /\ (fst run = Ok true ->
      exists p c_content,
        output_file = Some p
        /\ fst (image_to_c_array P E image_path w) = Ok (Some c_content)
        /\ write_ok E p = true
        /\ snd run = World (stdout w ++ [Converting relative_path; Generated p])
                           (<[p := c_content]> (files w)))
  /\ (forall p, output_file = Some p ->
        files (snd run) !! p = files w !! p
        \/ exists c_content k,
             fst (image_to_c_array P E image_path w) = Ok (Some c_content)
             /\ files (snd run) !! p = Some (take k c_content)).
Proof.
  cbv zeta. unfold convert_image_file, image_to_c_array.
  destruct (with_suffix relative_path (str ".h")) as [header|];
    destruct (var_name P (stem (default [] (last image_path)))) as [ident|];
    unfold try_except, bind, print, ret, raise, write_file; cbn [option_map];
    outcomes E; cbn [fst snd stdout files];
    (split; [intros p Hp; first [reflexivity|apply lookup_insert_ne; congruence]|]);
    (split; [intros x Hx; split; congruence|]);
    (split; [intros Hok; try discriminate Hok; eexists _, _;
             repeat split; try eassumption; rewrite <- app_assoc; reflexivity|]);
    intros p [= <-];
    first [left; reflexivity
          |right; eexists _, _; split; [reflexivity|];
           rewrite lookup_insert_eq;
           first [reflexivity|f_equal; symmetry; apply firstn_all]].
Qed.

(** A disk that fills up: the header is created and cut short, the file
    counts as an error and the process exits with 1. *)
Example convert_image_file_full_disk :
  let self := Converter [str "src"] [str "out"] in
  let run := convert_image_file numpy1 full_disk self [str "src"; str "a.png"]
               [str "a.png"] empty_world in
  fst run = Ok false
  /\ stdout (snd run)
     = [Converting [str "a.png"]; ErrorConverting [str "src"; str "a.png"]]
  /\ files (snd run) !! [str "out"; str "a.h"]
     = Some (str "/*" ++ newline ++ str " * Gene")
  /\ fst (main numpy1 full_disk (Args [str "src"] [str "out"] false) empty_world) = 1.
Proof. cbv zeta. repeat split; vm_compute; reflexivity. Qed.

(** ** A whole run *)

Section Reports.
Variable P : platform.
Variable E : env.
Variable self : converter.

#[local] Abbreviation eligible := (fun file_path =>
  below_source self file_path /\ supported P file_path = true).

(** What a conversion that returns has printed, by its outcome. *)
Lemma attempt_report (file_path : path) :
  eligible file_path ->
  returns P E self file_path = true ->
  let d := snd (attempt P E self file_path) in
  (length (stdout d) <= 2)%nat
  /\ generated_paths (stdout d)
     = (if converted P E self file_path then [mirrored_path self file_path] else [])
  /\ reported_errors (stdout d)
     = (if converted P E self file_path then [] else [file_path]).
Proof.
  intros [(dirs & name & ->) Hsup]. cbv zeta. unfold returns, converted.
  rewrite (attempt_cases P E self dirs name Hsup).
  cbv zeta. outcomes E; cbn [fst snd stdout]; intros Hret; try discriminate Hret;
    repeat split; cbn; lia.
Qed.

Lemma effects_report (l : list path) :
  Forall eligible l ->
  forallb (returns P E self) l = true ->
  (length (stdout (effects P E self l)) <= 2 * length l)%nat
  /\ generated_paths (stdout (effects P E self l))
     = map (mirrored_path self) (List.filter (converted P E self) l)
  /\ reported_errors (stdout (effects P E self l))
     = List.filter (fun fp => negb (converted P E self fp)) l.
Proof.
  induction 1 as [|fp l Hfp _ IH]; [repeat split; cbn; lia|].
  cbn [forallb]. intros [Hret Hl]%andb_prop.
  destruct (IH Hl) as (IHlen & IHgen & IHerr).
  destruct (attempt_report fp Hfp Hret) as (Hlen & Hgen & Herr).
  cbn [effects foldr List.filter]. fold (effects P E self l).
  unfold followed_by, generated_paths, reported_errors in *. cbn [stdout].
  rewrite length_app, !omap_app, Hgen, Herr, IHgen, IHerr.
  destruct (converted P E self fp); cbn [negb map app length]; repeat split; lia.
Qed.

End Reports.

(** X7.  When a traversal returns, its log reports every converted file
    once, by the path of the header written for it, and every other
    eligible file once, by its path with the source directory in front,
    both in the order of the walk; the tally counts the two kinds of
    line. *)
Theorem scan_and_convert_reports (P : platform) (E : env) (self : converter)
  (w : world) (converted_count error_count : nat) :
  fst (scan_and_convert P E self w) = Ok (converted_count, error_count) ->
  let w' := snd (scan_and_convert P E self w) in
  let done := List.filter (converted P E self) (eligible_files P E self) in
  let rest := List.filter (fun fp => negb (converted P E self fp))
                          (eligible_files P E self) in
  generated_paths (stdout w')
  = generated_paths (stdout w) ++ map (mirrored_path self) done
  /\ reported_errors (stdout w') = reported_errors (stdout w) ++ rest
  /\ converted_count = length done
  /\ error_count = length rest.
Proof.
  intros Hok. cbv zeta.
  destruct (scan_and_convert_cases P E self w) as (l' & log & r & Hscan & _ & _ & Hr).
  rewrite Hscan in Hok |- *. cbn [fst snd] in Hok |- *. subst r.
  destruct Hr as (Hret & _ & -> & -> & ->).
  destruct (effects_report P E self _ (eligible_files_spec P E self) Hret)
    as (_ & Hgen & Herr).
  unfold followed_by. cbn [stdout].
  unfold generated_paths, reported_errors in *.
  rewrite !omap_app, Hgen, Herr. cbn. rewrite !app_nil_r.
  repeat split; reflexivity.
Qed.

(** The gallery: two headers and one error. *)
Lemma scan_and_convert_reports_witness :
  let run := scan_and_convert numpy1 gallery (Converter [str "src"] [str "out"])
               empty_world in
  generated_paths (stdout (snd run))
  = [[str "out"; str "1 x-y.h"]; [str "out"; str "icons"; str "home.h"]]
  /\ reported_errors (stdout (snd run)) = [[str "src"; str "broken.bmp"]].
Proof.
  cbv zeta.
  destruct (scan_and_convert_reports numpy1 gallery (Converter [str "src"] [str "out"])
              empty_world 2 1 eq_refl) as (Hgen & Herr & _).
  split; [rewrite Hgen|rewrite Herr]; reflexivity.
Defined.

(** X8.  The log of a traversal that returns is the three opening lines,
    at most two lines for every eligible file, and the four closing lines,
    whose two counts are the counts the method returns; the counts add up
    to the number of eligible files. *)
Theorem scan_and_convert_summary (P : platform) (E : env) (self : converter)
  (w : world) (converted_count error_count : nat) :
  fst (scan_and_convert P E self w) = Ok (converted_count, error_count) ->
  (exists lines,
     stdout (snd (scan_and_convert P E self w))
     = stdout w
       ++ [ScanningSource (source_dir self); OutputDirectory (output_dir self); Blank]
       ++ lines
       ++ [Blank; ConversionComplete; ImagesConverted converted_count;
           Errors error_count]
     /\ (length lines <= 2 * length (eligible_files P E self))%nat)
  /\ (converted_count + error_count = length (eligible_files P E self))%nat.
Proof.
  intros Hok.
  destruct (scan_and_convert_cases P E self w) as (l' & log & r & Hscan & _ & _ & Hr).
  rewrite Hscan in Hok |- *. cbn [fst snd] in Hok |- *. subst r.
  destruct Hr as (Hret & _ & -> & -> & ->). split.
  - eexists. split; [reflexivity|].
    apply (effects_report P E self _ (eligible_files_spec P E self) Hret).
  - apply filter_complement.
Qed.

(** The gallery: three eligible files, two converted. *)
Lemma scan_and_convert_summary_witness :
  (2 + 1 = length (eligible_files numpy1 gallery (Converter [str "src"] [str "out"])))%nat.
Proof.
  exact (proj2 (scan_and_convert_summary numpy1 gallery
                  (Converter [str "src"] [str "out"]) empty_world 2 1 eq_refl)).
Defined.

(** X9.  When no two eligible files share an output path and the
    traversal returns, the header found at the mirrored path of a converted
    file holds exactly the text [image_to_c_array] returns for that
    file. *)
Theorem written_header_content (P : platform) (E : env) (self : converter)
  (w : world) (file_path : path) (c_content : pystr)
  (converted_count error_count : nat) :
  NoDup (map (mirrored_path self) (eligible_files P E self)) ->
  In file_path (eligible_files P E self) ->
  fst (scan_and_convert P E self w) = Ok (converted_count, error_count) ->
  converted P E self file_path = true ->
  fst (image_to_c_array P E file_path empty_world) = Ok (Some c_content) ->
  files (snd (scan_and_convert P E self w)) !! mirrored_path self file_path
  = Some c_content.
Proof.
  intros Hnodup Hin Hok Hconv Htext.
  pose proof (eligible_files_spec P E self) as Hel.
  assert (Hfp : below_source self file_path /\ supported P file_path = true).
  { rewrite Forall_forall in Hel. apply Hel, list_elem_of_In, Hin. }
  destruct (scan_and_convert_cases P E self w) as (l' & log & r & Hscan & _ & _ & Hr).
  rewrite Hscan in Hok |- *. cbn [fst snd] in Hok |- *. subst r.
  destruct Hr as (_ & -> & _).
  unfold followed_by. cbn [files]. apply lookup_union_Some_l.
  rewrite (effects_lookup P E self _ _ Hel Hnodup Hin).
  destruct (attempt_converted P E self file_path Hfp Hconv) as (text & Htext' & _ & ->).
  rewrite Htext in Htext'. injection Htext' as <-.
  cbn [files]. apply lookup_singleton_eq.
Qed.

(** The header of [icons/home.png] in the gallery. *)
Lemma written_header_content_witness :
  files (snd (scan_and_convert numpy1 gallery (Converter [str "src"] [str "out"])
                               empty_world))
    !! [str "out"; str "icons"; str "home.h"]
  = Some (artifact numpy1 (str "home.png") (str "home") 2 2
                   [0xF800; 0x07E0; 0x001F; 0xFFFF]).
Proof.
  refine (written_header_content numpy1 gallery (Converter [str "src"] [str "out"])
            empty_world [str "src"; str "icons"; str "home.png"] _ 2 1 _ _ _ _ _).
  - apply (bool_decide_unpack _). vm_compute. exact I.
  - vm_compute. right. right. left. reflexivity.
  - reflexivity.
  - reflexivity.
  - reflexivity.
Defined.

(** X10.  A traversal leaves every file alone whose path is not the
    mirrored path of an eligible file: nothing else is created, changed or
    removed, however the traversal ends. *)
Theorem other_files_untouched (P : platform) (E : env) (self : converter)
  (w : world) (p : path) :
  p ∉ map (mirrored_path self) (eligible_files P E self) ->
  files (snd (scan_and_convert P E self w)) !! p = files w !! p.
Proof. apply scan_and_convert_lookup. Qed.

(** A header of an earlier run, [out/old.h], survives the run over the
    twins. *)
Lemma other_files_untouched_witness :
  files (snd (scan_and_convert numpy1 twins (Converter [str "src"] [str "out"])
                (World [] {[ [str "out"; str "old.h"] := str "kept" ]})))
    !! [str "out"; str "old.h"]
  = Some (str "kept").
Proof.
  refine (eq_trans
            (other_files_untouched numpy1 twins (Converter [str "src"] [str "out"])
               (World [] {[ [str "out"; str "old.h"] := str "kept" ]})
               [str "out"; str "old.h"] _) _).
  - apply (bool_decide_unpack _). vm_compute. exact I.
  - reflexivity.
Defined.

(** X11.  When every line can be printed, a traversal that finds no
    eligible file, be it for an empty, a missing or an image-free source
    directory, returns (0, 0), prints the seven lines of an empty run and
    leaves the output directory as it was. *)
Theorem scan_and_convert_nothing_to_do (P : platform) (E : env) (self : converter)
  (w : world) :
  printable E ->
  eligible_files P E self = [] ->
  scan_and_convert P E self w
  = (Ok (O, O),
     World (stdout w
            ++ [ScanningSource (source_dir self); OutputDirectory (output_dir self);
                Blank; Blank; ConversionComplete; ImagesConverted 0; Errors 0])
           (files w)).
Proof.
  intros Hprint Hnone. rewrite (scan_and_convert_printable P E self w Hprint).
  cbv zeta. rewrite Hnone.
  unfold followed_by. cbn. rewrite (left_id_L ∅ (∪)). reflexivity.
Qed.

(** A source directory that does not exist. *)
Lemma scan_and_convert_nothing_to_do_witness :
  scan_and_convert numpy1 twins (Converter [str "nowhere"] [str "out"]) empty_world
  = (Ok (O, O),
     World [ScanningSource [str "nowhere"]; OutputDirectory [str "out"];
            Blank; Blank; ConversionComplete; ImagesConverted 0; Errors 0]
           ∅).
Proof.
  refine (scan_and_convert_nothing_to_do numpy1 twins
            (Converter [str "nowhere"] [str "out"]) empty_world _ _).
  - intros d. reflexivity.
  - reflexivity.
Defined.

(** X12.  [main] only ever adds: what was printed before it stays the
    beginning of the output, and every file that existed before it still
    exists after it, whatever the outcome. *)
Theorem main_only_adds (P : platform) (E : env) (a : args) (w : world) :
  stdout w `prefix_of` stdout (snd (main P E a w))
  /\ dom (files w) ⊆@{gset (list (list N))} dom (files (snd (main P E a w))).
Proof.
  rewrite main_followed_by. unfold followed_by. cbn [snd stdout files]. split.
  - eexists. reflexivity.
  - rewrite dom_union_L. apply union_subseteq_r.
Qed.

(** ** The call site under NumPy 2 *)

Lemma nep50_red (r : Byte.byte) :
  @lshift_lit _ (npnumber NEP50) (@and_lit _ (npnumber NEP50) (u8 r) 0xF8) 8
  = NpScalar uint8 0.
Proof. destruct r; vm_compute; reflexivity. Qed.

(** X13.  Under the promotion rules of NumPy 2 the value the call site
    packs does not depend on the red component: pixels that differ only in
    red are written as the same literal. *)
Theorem row_pixels_nep50_ignores_red (P : platform) (img img' : image) (y : nat) :
  numpy P = NEP50 ->
  width img = width img' ->
  (forall x, snd (fst (img_array img y x)) = snd (fst (img_array img' y x))
             /\ snd (img_array img y x) = snd (img_array img' y x)) ->
  row_pixels P img y = row_pixels P img' y.
Proof.
  intros Hnep Hwidth Hsame. rewrite !row_pixels_literals, <- Hwidth.
  f_equal. apply map_ext. intros x. specialize (Hsame x).
  destruct (img_array img y x) as [[r g] b], (img_array img' y x) as [[r' g'] b'].
  cbn [fst snd] in Hsame. destruct Hsame as [<- <-].
  unfold call_site_value, rgb888_to_rgb565. rewrite Hnep, !nep50_red. reflexivity.
Qed.

(** A red dot and a black dot. *)
Lemma row_pixels_nep50_ignores_red_witness :
  row_pixels numpy2 red_dot 0 = row_pixels numpy2 (Image 1 1 (fun _ _ => rgb 0 0 0)) 0.
Proof.
  refine (row_pixels_nep50_ignores_red numpy2 red_dot
            (Image 1 1 (fun _ _ => rgb 0 0 0)) 0 _ _ _).
  - reflexivity.
  - reflexivity.
  - intros x. split; reflexivity.
Defined.
